(** * Verification of [lintrunner_adapters/adapters/newlines_linter.py]

    A shallow embedding of the NEWLINE linter's [check_file] and of the
    Python built-ins it calls ([readlines], indexing, [bytes.decode],
    [str.rstrip]), followed by the properties of the linter.

    Conventions of the embedding:
    - a Python [bytes] object is a [list byte];
    - a Python [str] obtained by decoding file content is a list of Unicode
      code points ([text]); string literals and formatted messages are kept
      as Rocq strings;
    - a Python computation that may raise is a value of [Result];
    - the file system and the debug log form an explicit [World]. *)

From Stdlib Require Import NArith ZArith Lia Strings.Byte Strings.Ascii DecimalString.
From stdpp Require Import gmap strings list.

Local Open Scope string_scope.
Local Open Scope list_scope.
Local Open Scope N_scope.

(** ** Python values *)

Definition bytes : Type := list byte.
Definition text : Type := list N.

#[global] Instance byte_eq_decision : EqDecision byte := Byte.byte_eq_dec.

(** ** Exceptions and fallible computations *)

Inductive PyExc : Type :=
  | UnicodeDecodeError (encoding : string) (object : bytes)
      (start stop : nat) (reason : string)
  | AssertionError
  | IndexError (msg : string)
  | FileNotFoundError (filename : string).

Inductive Result (A : Type) : Type :=
  | Ok (a : A)
  | Raise (e : PyExc).
Arguments Ok {A} a.
Arguments Raise {A} e.

#[global] Instance Result_ret : MRet Result := fun A a => Ok a.
#[global] Instance Result_bind : MBind Result := fun A B f m =>
  match m with
  | Ok a => f a
  | Raise e => Raise e
  end.
#[global] Instance Result_fmap : FMap Result := fun A B f m =>
  match m with
  | Ok a => Ok (f a)
  | Raise e => Raise e
  end.

(** [err.__class__.__name__] *)
Definition class_name (e : PyExc) : string :=
  match e with
  | UnicodeDecodeError _ _ _ _ _ => "UnicodeDecodeError"
  | AssertionError => "AssertionError"
  | IndexError _ => "IndexError"
  | FileNotFoundError _ => "FileNotFoundError"
  end.

Definition nl : string := String (ascii_of_nat 10) "".

Definition str_of_nat (n : nat) : string :=
  NilEmpty.string_of_uint (Nat.to_uint n).

Definition hex_digit (n : N) : ascii :=
  match n with
  | 0 => "0" | 1 => "1" | 2 => "2" | 3 => "3" | 4 => "4" | 5 => "5"
  | 6 => "6" | 7 => "7" | 8 => "8" | 9 => "9" | 10 => "a" | 11 => "b"
  | 12 => "c" | 13 => "d" | 14 => "e" | _ => "f"
  end%char.

(** [format(b, "02x")] for a byte. *)
Definition hex2 (b : byte) : string :=
  String (hex_digit (Byte.to_N b / 16))
    (String (hex_digit (Byte.to_N b mod 16)) "").

(** [repr(s)] of a [str]: single quotes, unless [s] has a single quote and
    no double quote; the quote in use and the backslash are escaped, tab,
    line-feed and carriage-return are written as letters, and the other
    characters that are not printable as [\xNN].  The characters of a
    string stand for the code points below 256, of which the C0 and C1
    controls, DEL, the no-break space and the soft hyphen are not
    printable. *)
Definition backslash : ascii := ascii_of_nat 92.
Definition single_quote : ascii := ascii_of_nat 39.
Definition double_quote : ascii := ascii_of_nat 34.

Definition hex2_of_N (n : N) : string :=
  String (hex_digit (n / 16)) (String (hex_digit (n mod 16)) "").

Definition py_repr_char (quote c : ascii) : string :=
  let n := N_of_ascii c in
  if bool_decide (c = quote ∨ c = backslash) then
    String backslash (String c "")
  else if n =? 9 then String backslash "t"
  else if n =? 10 then String backslash "n"
  else if n =? 13 then String backslash "r"
  else if (n <? 32) || (n =? 127) || ((128 <=? n) && (n <=? 160))
          || (n =? 173)
  then String backslash (String "x" (hex2_of_N n))
  else String c "".

Fixpoint py_repr_body (quote : ascii) (s : string) : string :=
  match s with
  | EmptyString => ""
  | String c rest => py_repr_char quote c +:+ py_repr_body quote rest
  end.

Fixpoint string_contains (c : ascii) (s : string) : bool :=
  match s with
  | EmptyString => false
  | String x rest => bool_decide (x = c) || string_contains c rest
  end.

Definition py_repr (s : string) : string :=
  let quote :=
    if string_contains single_quote s && negb (string_contains double_quote s)
    then double_quote else single_quote in
  String quote (py_repr_body quote s +:+ String quote "").

(** [str(err)]: the message of the exception. *)
Definition exc_str (e : PyExc) : string :=
  match e with
  | UnicodeDecodeError enc obj start stop reason =>
      match obj !! start with
      | Some b =>
          if bool_decide (stop = S start) then
            "'" +:+ enc +:+ "' codec can't decode byte 0x" +:+ hex2 b
              +:+ " in position " +:+ str_of_nat start +:+ ": " +:+ reason
          else
            "'" +:+ enc +:+ "' codec can't decode bytes in position "
              +:+ str_of_nat start +:+ "-" +:+ str_of_nat (stop - 1)
              +:+ ": " +:+ reason
      | None =>
          "'" +:+ enc +:+ "' codec can't decode bytes in position "
            +:+ str_of_nat start +:+ "-" +:+ str_of_nat (stop - 1)
            +:+ ": " +:+ reason
      end
  | AssertionError => ""
  | IndexError msg => msg
  | FileNotFoundError fn =>
      "[Errno 2] No such file or directory: " +:+ py_repr fn
  end.

(** ** Sequence built-ins *)

(** [l[i]] with Python's negative indices; out of range raises
    [IndexError(msg)] ("list index out of range" for a list,
    "index out of range" for a [bytes] object). *)
Definition py_getitem {A : Type} (msg : string) (l : list A) (i : Z)
  : Result A :=
  let j := if (i <? 0)%Z then (i + Z.of_nat (length l))%Z else i in
  if (j <? 0)%Z then Raise (IndexError msg)
  else
    match l !! Z.to_nat j with
    | Some x => Ok x
    | None => Raise (IndexError msg)
    end.

Definition list_index_error : string := "list index out of range".
Definition bytes_index_error : string := "index out of range".

(** [l[i] = x] for a non-negative [i]. *)
Definition py_setitem {A : Type} (l : list A) (i : nat) (x : A)
  : Result (list A) :=
  if bool_decide (i < length l)%nat then Ok (<[i := x]> l)
  else Raise (IndexError "list assignment index out of range").

(** [b[:-2]] *)
Definition slice_to_minus2 (b : bytes) : bytes := take (length b - 2) b.

(** [b"".join(lines)] *)
Definition bytes_join (lines : list bytes) : bytes := concat lines.

(** [s.rstrip(chars)]: drop the trailing characters that occur in [chars]. *)
Fixpoint rstrip (chars : text) (s : text) : text :=
  match s with
  | [] => []
  | c :: r =>
      match rstrip chars r with
      | [] => if bool_decide (c ∈ chars) then [] else [c]
      | r' => c :: r'
      end
  end.

(** ** Constants of the module *)

Definition NEWLINE : byte := Byte.x0a.          (* 10, ASCII "\n" *)
Definition CARRIAGE_RETURN : byte := Byte.x0d.  (* 13, ASCII "\r" *)
Definition LINTER_CODE : string := "NEWLINE".

(** ** [f.readlines()] on a binary file

    Each line is the maximal run of bytes up to and including the next
    line-feed; a final fragment without a line-feed is a line too. *)
Fixpoint readlines (data : bytes) : list bytes :=
  match data with
  | [] => []
  | b :: rest =>
      if bool_decide (b = NEWLINE) then [b] :: readlines rest
      else
        match readlines rest with
        | [] => [[b]]
        | l :: ls => (b :: l) :: ls
        end
  end.

(** ** [bytes.decode("utf-8")] and [str.encode("utf-8")]

    The strict UTF-8 codec: shortest form only, no surrogates, nothing above
    U+10FFFF.  A failure raises [UnicodeDecodeError] with the offending byte
    range [start, stop) and a reason. *)

Definition is_continuation (b : byte) : bool :=
  (0x80 <=? Byte.to_N b) && (Byte.to_N b <? 0xC0).

(** The second byte of a three- or four-byte sequence is further restricted
    by the lead byte: this rules out overlong forms, surrogates and code
    points above U+10FFFF. *)
Definition second_ok (c0 : N) (b1 : byte) : bool :=
  is_continuation b1 &&
  (if c0 =? 0xE0 then 0xA0 <=? Byte.to_N b1
   else if c0 =? 0xED then Byte.to_N b1 <? 0xA0
   else if c0 =? 0xF0 then 0x90 <=? Byte.to_N b1
   else if c0 =? 0xF4 then Byte.to_N b1 <? 0x90
   else true).

Definition low6 (b : byte) : N := Byte.to_N b - 0x80.

Fixpoint utf8_decode_from (obj : bytes) (pos : nat) (bs : bytes)
  {struct bs} : Result text :=
  let fail (stop : nat) (reason : string) : Result text :=
    Raise (UnicodeDecodeError "utf-8" obj pos stop reason) in
  let truncated := fail (length obj) "unexpected end of data" in
  let bad_continuation (k : nat) :=
    fail (pos + k)%nat "invalid continuation byte" in
  match bs with
  | [] => Ok []
  | b0 :: r0 =>
    let c0 := Byte.to_N b0 in
    if c0 <? 0x80 then cons c0 <$> utf8_decode_from obj (pos + 1) r0
    else if c0 <? 0xC2 then fail (pos + 1)%nat "invalid start byte"
    else if c0 <? 0xE0 then
      match r0 with
      | [] => truncated
      | b1 :: r1 =>
        if is_continuation b1 then
          cons ((c0 - 0xC0) * 64 + low6 b1)
            <$> utf8_decode_from obj (pos + 2) r1
        else bad_continuation 1%nat
      end
    else if c0 <? 0xF0 then
      match r0 with
      | [] => truncated
      | b1 :: r1 =>
        if second_ok c0 b1 then
          match r1 with
          | [] => truncated
          | b2 :: r2 =>
            if is_continuation b2 then
              cons ((c0 - 0xE0) * 4096 + low6 b1 * 64 + low6 b2)
                <$> utf8_decode_from obj (pos + 3) r2
            else bad_continuation 2%nat
          end
        else bad_continuation 1%nat
      end
    else if c0 <? 0xF5 then
      match r0 with
      | [] => truncated
      | b1 :: r1 =>
        if second_ok c0 b1 then
          match r1 with
          | [] => truncated
          | b2 :: r2 =>
            if is_continuation b2 then
              match r2 with
              | [] => truncated
              | b3 :: r3 =>
                if is_continuation b3 then
                  cons ((c0 - 0xF0) * 262144 + low6 b1 * 4096
                        + low6 b2 * 64 + low6 b3)
                    <$> utf8_decode_from obj (pos + 4) r3
                else bad_continuation 3%nat
              end
            else bad_continuation 2%nat
          end
        else bad_continuation 1%nat
      end
    else fail (pos + 1)%nat "invalid start byte"
  end.

(** [data.decode("utf-8")] *)
Definition bytes_decode_utf8 (data : bytes) : Result text :=
  utf8_decode_from data 0 data.

Definition byte_of_N (n : N) : byte :=
  match Byte.of_N n with
  | Some b => b
  | None => Byte.x00
  end.

(** The code points a decoded [str] can hold: Unicode scalar values. *)
Definition is_scalar (c : N) : Prop :=
  c < 0xD800 \/ (0xE000 <= c /\ c < 0x110000).

Definition utf8_encode_char (c : N) : bytes :=
  if c <? 0x80 then [byte_of_N c]
  else if c <? 0x800 then
    [byte_of_N (0xC0 + c / 64); byte_of_N (0x80 + c mod 64)]
  else if c <? 0x10000 then
    [byte_of_N (0xE0 + c / 4096); byte_of_N (0x80 + (c / 64) mod 64);
     byte_of_N (0x80 + c mod 64)]
  else
    [byte_of_N (0xF0 + c / 262144); byte_of_N (0x80 + (c / 4096) mod 64);
     byte_of_N (0x80 + (c / 64) mod 64); byte_of_N (0x80 + c mod 64)].

(** [s.encode("utf-8")] for a [str] of scalar values (Python raises on a
    lone surrogate; decoded text never contains one, see
    [utf8_decode_scalar]). *)
Definition utf8_encode (s : text) : bytes := s ≫= utf8_encode_char.

(** ** What the module imports from the package

    [IS_WINDOWS], [LintMessage] and [LintSeverity] are imported from the
    package's [__init__], which is not part of the sources at hand.
    [IS_WINDOWS] is a parameter of [check_file] below. *)

(** Modelled from the spec: the [LintSeverity] enumeration is declared in the
    package's [__init__]; this module only refers to its member [ERROR]
    (section 3 of the specification: severity is fixed at error). *)
Inductive LintSeverity : Type := ERROR | WARNING | ADVICE | DISABLED.

(** Modelled from the spec: the [LintMessage] record is declared in the
    package's [__init__]; its fields are the keyword arguments passed by
    [check_file] (section 6 of the specification lists the same ones). *)
Record LintMessage : Type := mkLintMessage {
  path : string;
  line : option Z;
  char : option Z;
  code : string;
  severity : LintSeverity;
  name : string;
  original : option text;
  replacement : option text;
  description : string;
}.

(** ** The world: files on disk and the records sent to [logging.debug] *)

Record World : Type := mkWorld {
  files : gmap string bytes;
  debug_log : list string;
}.

Definition logging_debug (msg : string) (w : World) : World :=
  {| files := files w; debug_log := debug_log w ++ [msg] |}.

(** ** The DOS-newline scan (lines 75-82 of the source)

    The loop variables [lines], [has_changes] and [original_lines]. *)
Record ScanState : Type := mkScanState {
  sc_lines : list bytes;
  has_changes : bool;
  original_lines : option (list bytes);
}.

(** [len(line) >= 2 and line[-1] == NEWLINE and line[-2] == CARRIAGE_RETURN] *)
Definition ends_with_crlf (ln : bytes) : Result bool :=
  if (2 <=? length ln)%nat then
    x ← py_getitem bytes_index_error ln (-1);
    if bool_decide (x = NEWLINE) then
      y ← py_getitem bytes_index_error ln (-2);
      Ok (bool_decide (y = CARRIAGE_RETURN))
    else Ok false
  else Ok false.

(** The body of the [for] loop for one [(idx, line)]. *)
Definition scan_body (idx : nat) (ln : bytes) (st : ScanState)
  : Result ScanState :=
  c ← ends_with_crlf ln;
  if c : bool then
    let st1 :=
      if negb (has_changes st) then
        {| sc_lines := sc_lines st; has_changes := true;
           original_lines := Some (sc_lines st) |}
      else st in
    lines' ← py_setitem (sc_lines st1) idx (slice_to_minus2 ln ++ [NEWLINE]);
    Ok {| sc_lines := lines'; has_changes := has_changes st1;
          original_lines := original_lines st1 |}
  else Ok st.

(** [for idx, line in enumerate(lines)]: the list iterator reads
    [lines[idx]] from the list as it is at that moment and stops when [idx]
    is out of range.  [n] bounds the number of iterations; the loop never
    changes the length of [lines], so [length lines] iterations exhaust it
    (lemma [scan_loop_exhausts]). *)
Fixpoint scan_loop (n : nat) (idx : nat) (st : ScanState)
  : Result ScanState :=
  match n with
  | O => Ok st
  | S n' =>
      match sc_lines st !! idx with
      | None => Ok st
      | Some ln =>
          st' ← scan_body idx ln st;
          scan_loop n' (S idx) st'
      end
  end.

(** ** [check_file]

    The four findings it builds.  The specification calls them
    file-is-bare-newline, decode-failure, trailing-newline and dos-newline;
    the [name] fields below are the ones in the code. *)

Definition bare_newline_message (filename : string) : LintMessage :=
  {| path := filename; line := None; char := None; code := LINTER_CODE;
     severity := ERROR; name := "testestTrailing newline";
     original := None; replacement := None;
     description :=
       "Trailing newline found. Run `lintrunner --take NEWLINE -a` to apply changes." |}.

Definition decode_failure_message (filename : string) (err : PyExc)
  : LintMessage :=
  {| path := filename; line := None; char := None; code := LINTER_CODE;
     severity := ERROR; name := "Decoding failure";
     original := None; replacement := None;
     description :=
       "utf-8 decoding failed due to " +:+ class_name err +:+ ":" +:+ nl
         +:+ exc_str err |}.

Definition trailing_newline_message (filename : string) (orig : text)
  : LintMessage :=
  {| path := filename; line := None; char := None; code := LINTER_CODE;
     severity := ERROR; name := "Trailing newline";
     original := Some orig;
     replacement := Some (rstrip [10] orig ++ [10]);
     description :=
       "Trailing newline found. Run `lintrunner --take NEWLINE -a` to apply changes." |}.

Definition dos_newline_message (filename : string) (orig repl : text)
  : LintMessage :=
  {| path := filename; line := None; char := None; code := LINTER_CODE;
     severity := ERROR; name := "DOS newline";
     original := Some orig; replacement := Some repl;
     description :=
       "DOS newline found. Run `lintrunner --take NEWLINE -a` to apply changes." |}.

(** Lines 24-113: everything after [lines = f.readlines()]. *)
Definition check_lines (IS_WINDOWS : bool) (filename : string)
  (lines : list bytes) : Result (option LintMessage) :=
  if bool_decide (lines = []) then Ok None
  else
    first ← py_getitem list_index_error lines 0;
    if bool_decide (length lines = length first)
       && bool_decide (length first = 1%nat)
    then Ok (Some (bare_newline_message filename))
    else
      final ← py_getitem list_index_error lines (-1);
      blank ← (if bool_decide (length final = 1%nat) then
                 b ← py_getitem bytes_index_error final 0;
                 Ok (bool_decide (b = NEWLINE))
               else Ok false);
      if blank : bool then
        match bytes_decode_utf8 (bytes_join lines) with
        | Raise err => Ok (Some (decode_failure_message filename err))
        | Ok orig => Ok (Some (trailing_newline_message filename orig))
        end
      else if IS_WINDOWS then Ok None
      else
        st ← scan_loop (length lines) 0
               {| sc_lines := lines; has_changes := false;
                  original_lines := None |};
        if has_changes st then
          match
            (ol ← (match original_lines st with
                   | Some ol => Ok ol
                   | None => Raise AssertionError
                   end);
             orig ← bytes_decode_utf8 (bytes_join ol);
             repl ← bytes_decode_utf8 (bytes_join (sc_lines st));
             Ok (orig, repl))
          with
          | Raise err => Ok (Some (decode_failure_message filename err))
          | Ok (orig, repl) =>
              Ok (Some (dos_newline_message filename orig repl))
          end
        else Ok None.

(** [check_file(filename)]: log, read the file, classify.  A missing file
    makes [open] raise. *)
Definition check_file (IS_WINDOWS : bool) (filename : string) (w : World)
  : Result (option LintMessage) * World :=
  let w1 := logging_debug ("Checking file " +:+ filename) w in
  match files w1 !! filename with
  | None => (Raise (FileNotFoundError filename), w1)
  | Some data => (check_lines IS_WINDOWS filename (readlines data), w1)
  end.

(** ** Notions used to state the properties

    These follow the wording of the specification, not the code; the
    properties relate them to what the code computes. *)

(** A physical line whose last two bytes are carriage-return, line-feed. *)
Definition ends_crlf (ln : bytes) : Prop :=
  [CARRIAGE_RETURN; NEWLINE] `suffix_of` ln.

(** The intended rewrite of one line: a trailing carriage-return, line-feed
    pair becomes a single line-feed. *)
Definition fix_line (ln : bytes) : bytes :=
  if decide (ends_crlf ln) then slice_to_minus2 ln ++ [NEWLINE] else ln.

(** The content has a carriage-return immediately followed by a line-feed. *)
Definition has_crlf (data : bytes) : Prop :=
  ∃ p q, data = p ++ CARRIAGE_RETURN :: NEWLINE :: q.

(** The content ends in two or more line-feed bytes. *)
Definition ends_blank (data : bytes) : Prop :=
  [NEWLINE; NEWLINE] `suffix_of` data.

(** Replace every [cr lf] pair of a sequence by [lf]; every other element,
    a lone [cr] included, stays where it is. *)
Fixpoint crlf_to_lf {A : Type} `{EqDecision A} (cr lf : A) (l : list A)
  : list A :=
  match l with
  | [] => []
  | x :: rest =>
      if bool_decide (x = cr ∧ head rest = Some lf) then crlf_to_lf cr lf rest
      else x :: crlf_to_lf cr lf rest
  end.

(** Drop all trailing occurrences of [x]. *)
Fixpoint strip_trailing {A : Type} `{EqDecision A} (x : A) (l : list A)
  : list A :=
  match l with
  | [] => []
  | y :: r =>
      match strip_trailing x r with
      | [] => if bool_decide (y = x) then [] else [y]
      | r' => y :: r'
      end
  end.

Fixpoint contains_crlf (data : bytes) : bool :=
  match data with
  | [] => false
  | x :: rest =>
      bool_decide (x = CARRIAGE_RETURN ∧ head rest = Some NEWLINE)
      || contains_crlf rest
  end.

(** A closed form of [check_file] on the content of the file, with the tests
    of the code stated on the content instead of on the list of lines:
    empty file, one-byte file, blank last line, native-CRLF exemption,
    DOS-newline scan.  [check_lines_classify] proves it equal to the code. *)
Definition classify (IS_WINDOWS : bool) (filename : string) (data : bytes)
  : option LintMessage :=
  if bool_decide (data = []) then None
  else if bool_decide (length data = 1%nat) then
    Some (bare_newline_message filename)
  else if bool_decide (ends_blank data) then
    Some (match bytes_decode_utf8 data with
          | Raise err => decode_failure_message filename err
          | Ok orig => trailing_newline_message filename orig
          end)
  else if IS_WINDOWS then None
  else if contains_crlf data then
    Some (match bytes_decode_utf8 data with
          | Raise err => decode_failure_message filename err
          | Ok orig =>
              match
                bytes_decode_utf8 (crlf_to_lf CARRIAGE_RETURN NEWLINE data)
              with
              | Raise err => decode_failure_message filename err
              | Ok repl => dos_newline_message filename orig repl
              end
          end)
  else None.

(** The state the scan loop ends in, started in state [st] with the lines
    [done] behind it and the lines [rest] ahead. *)
Definition scan_result (st : ScanState) (done rest : list bytes)
  : ScanState :=
  {| sc_lines := done ++ (fix_line <$> rest);
     has_changes := has_changes st || bool_decide (Exists ends_crlf rest);
     original_lines :=
       if has_changes st then original_lines st
       else if bool_decide (Exists ends_crlf rest) then Some (done ++ rest)
       else original_lines st |}.

(** A world holding one file, for the examples. *)
Definition world_with (filename : string) (data : bytes) : World :=
  {| files := {[ filename := data ]}; debug_log := [] |}.

(** ** The command-line driver (lines 116-151)

    [argparse], [logging] and [LintMessage.display] are not part of the
    sources at hand.  The driver is modelled from the point where
    [parser.parse_args()] has returned. *)

(** [args]: the parsed command line. *)
Record Namespace : Type := mkNamespace {
  verbose : bool;
  filenames : list string;
}.

(** The numeric levels of the [logging] module. *)
Definition NOTSET : N := 0.
Definition DEBUG : N := 10.
Definition INFO : N := 20.

(** The [level] argument of [logging.basicConfig], lines 136-140. *)
Definition logging_level (args : Namespace) : N :=
  if verbose args then NOTSET
  else if (length (filenames args) <? 1000)%nat then DEBUG
  else INFO.

(** What the handler set up by [basicConfig] writes for the records sent to
    [logging.debug]: the root logger handles a record of level [DEBUG] when
    [DEBUG] is not below its own level, and the format of line 135 puts the
    thread name (checks run on the main thread) and the level name in front
    of the message. *)
Definition debug_lines (level : N) (records : list string) : list string :=
  if level <=? DEBUG then
    (λ msg, "<MainThread:DEBUG> " +:+ msg) <$> records
  else [].

(** Lines 144-148: the first loop, with the list [lint_messages] built so
    far.  An exception of [check_file] ends it. *)
Fixpoint check_files (IS_WINDOWS : bool) (names : list string)
  (lint_messages : list LintMessage) (w : World)
  : Result (list LintMessage) * World :=
  match names with
  | [] => (Ok lint_messages, w)
  | filename :: rest =>
      match check_file IS_WINDOWS filename w with
      | (Raise e, w') => (Raise e, w')
      | (Ok lint_message, w') =>
          check_files IS_WINDOWS rest
            (match lint_message with
             | Some m => lint_messages ++ [m]
             | None => lint_messages
             end) w'
      end
  end.

(** Lines 150-151: the second loop.  [display] is modelled by its effect
    on the list of messages displayed so far. *)
Definition display_all (lint_messages displayed : list LintMessage)
  : list LintMessage :=
  foldl (λ out m, out ++ [m]) displayed lint_messages.

(** What a run of the driver leaves behind. *)
Record Outcome : Type := mkOutcome {
  status : Result ();
  world_after : World;
  displayed : list LintMessage;
  logged : list string;
}.

(** Lines 132-151.  [logged] holds the lines the logging handler wrote
    during the run. *)
Definition main (IS_WINDOWS : bool) (args : Namespace) (w : World)
  : Outcome :=
  let level := logging_level args in
  match check_files IS_WINDOWS (filenames args) [] w with
  | (Raise e, w') =>
      {| status := Raise e; world_after := w'; displayed := [];
         logged :=
           debug_lines level (drop (length (debug_log w)) (debug_log w')) |}
  | (Ok lint_messages, w') =>
      {| status := Ok (); world_after := w';
         displayed := display_all lint_messages [];
         logged :=
           debug_lines level (drop (length (debug_log w)) (debug_log w')) |}
  end.

(** The message [check_file] sends to [logging.debug] for a file. *)
Definition checking (filename : string) : string :=
  "Checking file " +:+ filename.

(** The finding [check_file] returns for a file, if it returns one. *)
Definition finding_of (IS_WINDOWS : bool) (w : World) (filename : string)
  : option LintMessage :=
  match (check_file IS_WINDOWS filename w).1 with
  | Ok (Some m) => Some m
  | _ => None
  end.

(** A world holding the listed files, for the examples. *)
Definition world_of (l : list (string * bytes)) : World :=
  {| files := list_to_map l; debug_log := [] |}.

(** * Properties *)

(** ** Indexing *)

Lemma py_getitem_neg {A} msg (l : list A) (k : nat) (x : A) :
  (0 < k ≤ length l)%nat → l !! (length l - k)%nat = Some x →
  py_getitem msg l (- Z.of_nat k) = Ok x.
Proof.
  intros Hk Hx. unfold py_getitem.
  destruct (Z.ltb_spec (- Z.of_nat k) 0) as [_|?]; [|lia].
  destruct (Z.ltb_spec (- Z.of_nat k + Z.of_nat (length l)) 0) as [?|_];
    [lia|].
  replace (Z.to_nat (- Z.of_nat k + Z.of_nat (length l)))
    with (length l - k)%nat by lia.
  by rewrite Hx.
Qed.

Lemma py_getitem_last {A} msg (l : list A) (x : A) :
  py_getitem msg (l ++ [x]) (-1) = Ok x.
Proof.
  apply (py_getitem_neg msg (l ++ [x]) 1 x); rewrite length_app; simpl;
    [lia|].
  apply list_lookup_middle. lia.
Qed.

Lemma py_getitem_last2 {A} msg (l : list A) (x y : A) :
  py_getitem msg (l ++ [x; y]) (-2) = Ok x.
Proof.
  apply (py_getitem_neg msg (l ++ [x; y]) 2 x); rewrite length_app; simpl;
    [lia|].
  apply list_lookup_middle. lia.
Qed.

(** ** [readlines] *)

Lemma readlines_nil_inv data : readlines data = [] → data = [].
Proof.
  destruct data as [|b rest]; [done|]. simpl.
  case_bool_decide; [done|]. by destruct (readlines rest).
Qed.

Lemma concat_readlines data : concat (readlines data) = data.
Proof.
  induction data as [|b rest IH]; [done|]. simpl.
  case_bool_decide.
  - simpl. by rewrite IH.
  - destruct (readlines rest) as [|l ls] eqn:E.
    + apply readlines_nil_inv in E. by subst.
    + simpl in *. by rewrite IH.
Qed.

Lemma readlines_nonempty data : Forall (λ ln, ln ≠ []) (readlines data).
Proof.
  induction data as [|b rest IH]; simpl; [constructor|].
  case_bool_decide.
  - by constructor.
  - destruct (readlines rest) as [|l ls]; [by repeat constructor|].
    inversion IH; subst. by constructor.
Qed.

(** A line-feed closes a line: what follows is split independently. *)
Lemma readlines_app_newline p q :
  readlines (p ++ NEWLINE :: q) = readlines (p ++ [NEWLINE]) ++ readlines q.
Proof.
  induction p as [|b p IH]; simpl.
  - done.
  - rewrite IH. case_bool_decide; [done|].
    destruct (readlines (p ++ [NEWLINE])) as [|l ls] eqn:E; [|done].
    apply readlines_nil_inv in E. by destruct p.
Qed.

(** ** Lines ending in carriage-return, line-feed *)

Lemma last_two {A} (l : list A) :
  (2 ≤ length l)%nat → ∃ p x y, l = p ++ [x; y].
Proof.
  intros Hlen. destruct l as [|y l _] using rev_ind; [simpl in Hlen; lia|].
  destruct l as [|x l _] using rev_ind.
  - simpl in Hlen. lia.
  - exists l, x, y. by rewrite <- app_assoc.
Qed.

Lemma ends_crlf_app p x y :
  ends_crlf (p ++ [x; y]) ↔ x = CARRIAGE_RETURN ∧ y = NEWLINE.
Proof.
  unfold ends_crlf. split.
  - intros [k Hk].
    apply app_inj_2 in Hk as [_ Hk]; [|done]. by inversion Hk.
  - intros [-> ->]. by exists p.
Qed.

Lemma ends_crlf_length ln : ends_crlf ln → (2 ≤ length ln)%nat.
Proof. intros [k ->]. rewrite length_app. simpl. lia. Qed.

Lemma slice_to_minus2_app p x y : slice_to_minus2 (p ++ [x; y]) = p.
Proof.
  unfold slice_to_minus2. rewrite length_app. simpl.
  replace (length p + 2 - 2)%nat with (length p) by lia.
  by rewrite take_app_length.
Qed.

Lemma fix_line_crlf p :
  fix_line (p ++ [CARRIAGE_RETURN; NEWLINE]) = p ++ [NEWLINE].
Proof.
  unfold fix_line. rewrite decide_True by (by apply ends_crlf_app).
  by rewrite slice_to_minus2_app.
Qed.

Lemma fix_line_other ln : ¬ ends_crlf ln → fix_line ln = ln.
Proof. intros H. unfold fix_line. by rewrite decide_False. Qed.

(** The test of line 78 never raises and decides [ends_crlf]. *)
Lemma ends_with_crlf_spec ln :
  ends_with_crlf ln = Ok (bool_decide (ends_crlf ln)).
Proof.
  unfold ends_with_crlf.
  destruct (Nat.leb_spec 2 (length ln)) as [Hlen|Hlen].
  - destruct (last_two ln Hlen) as (p & x & y & ->).
    replace (p ++ [x; y]) with ((p ++ [x]) ++ [y]) at 1
      by (by rewrite <- app_assoc).
    rewrite py_getitem_last. simpl.
    case_bool_decide as Hy.
    + rewrite py_getitem_last2. simpl. f_equal.
      apply bool_decide_ext. rewrite ends_crlf_app. tauto.
    + f_equal. symmetry. apply bool_decide_eq_false.
      rewrite ends_crlf_app. tauto.
  - f_equal. symmetry. apply bool_decide_eq_false.
    intros H%ends_crlf_length. lia.
Qed.


(** ** The scan loop *)

Lemma py_setitem_middle {A} (done rest : list A) (x y : A) :
  py_setitem (done ++ x :: rest) (length done) y = Ok (done ++ y :: rest).
Proof.
  unfold py_setitem. rewrite bool_decide_true.
  - f_equal. rewrite insert_app_r_alt by lia.
    by replace (length done - length done)%nat with 0%nat by lia.
  - rewrite length_app. simpl. lia.
Qed.

Lemma scan_loop_spec rest : ∀ n done st,
  sc_lines st = done ++ rest →
  (length rest ≤ n)%nat →
  scan_loop n (length done) st = Ok (scan_result st done rest).
Proof.
  induction rest as [|ln rest IH]; intros n done st Hst Hn.
  - assert (Hend : sc_lines st !! length done = None).
    { rewrite Hst, app_nil_r. by apply lookup_ge_None. }
    assert (Hres : scan_result st done [] = st).
    { destruct st as [ls hc ol]. unfold scan_result. simpl in *.
      rewrite app_nil_r in *. subst ls.
      rewrite orb_false_r. by destruct hc. }
    rewrite Hres. destruct n; simpl; [done|]. by rewrite Hend.
  - destruct n as [|n]; [simpl in Hn; lia|]. simpl in Hn.
    simpl. rewrite Hst, list_lookup_middle by done.
    unfold scan_body. rewrite ends_with_crlf_spec. simpl.
    case_bool_decide as Hln.
    + assert (Hset : ∀ st1, sc_lines st1 = sc_lines st →
        py_setitem (sc_lines st1) (length done)
          (slice_to_minus2 ln ++ [NEWLINE])
        = Ok (done ++ fix_line ln :: rest)).
      { intros st1 ->. rewrite Hst, py_setitem_middle.
        unfold fix_line. by rewrite decide_True. }
      rewrite Hset by (by destruct (has_changes st)). simpl.
      replace (S (length done)) with (length (done ++ [fix_line ln]))
        by (rewrite length_app; simpl; lia).
      rewrite (IH n (done ++ [fix_line ln])); simpl;
        [|by rewrite <- app_assoc|lia].
      f_equal. unfold scan_result. simpl.
      rewrite (bool_decide_true (Exists ends_crlf (ln :: rest))) by (by left).
      rewrite <- app_assoc. simpl.
      rewrite Hst.
      destruct (has_changes st) eqn:Hhc, (bool_decide (Exists ends_crlf rest));
        simpl; rewrite ?Hhc; reflexivity.
    + simpl.
      replace (S (length done)) with (length (done ++ [ln]))
        by (rewrite length_app; simpl; lia).
      rewrite (IH n (done ++ [ln])); [|by rewrite Hst, <- app_assoc|lia].
      f_equal. unfold scan_result. simpl.
      rewrite fix_line_other by done. rewrite <- !app_assoc. simpl.
      assert (Hex : bool_decide (Exists ends_crlf (ln :: rest))
                    = bool_decide (Exists ends_crlf rest)).
      { apply bool_decide_ext. rewrite Exists_cons. tauto. }
      by rewrite Hex.
Qed.

Lemma scan_loop_from_start lines n :
  (length lines ≤ n)%nat →
  scan_loop n 0
    {| sc_lines := lines; has_changes := false; original_lines := None |}
  = Ok {| sc_lines := fix_line <$> lines;
          has_changes := bool_decide (Exists ends_crlf lines);
          original_lines :=
            if bool_decide (Exists ends_crlf lines) then Some lines
            else None |}.
Proof.
  intros Hn.
  exact (scan_loop_spec lines n []
           {| sc_lines := lines; has_changes := false;
              original_lines := None |} eq_refl Hn).
Qed.

(** [length lines] iterations exhaust the list: more change nothing. *)
Lemma scan_loop_exhausts lines n :
  (length lines ≤ n)%nat →
  scan_loop n 0
    {| sc_lines := lines; has_changes := false; original_lines := None |}
  = scan_loop (length lines) 0
      {| sc_lines := lines; has_changes := false; original_lines := None |}.
Proof.
  intros Hn. by rewrite !scan_loop_from_start.
Qed.

(** ** Lines and content *)

Lemma readlines_singleton b : readlines [b] = [[b]].
Proof. simpl. by case_bool_decide. Qed.

Lemma readlines_cons_nonempty b rest : readlines (b :: rest) ≠ [].
Proof. intros H%readlines_nil_inv. done. Qed.

(** Only a one-byte file consists of one line of one byte. *)
Lemma readlines_one_byte data first ls :
  readlines data = first :: ls →
  (length (first :: ls) = length first ∧ length first = 1%nat)
  ↔ length data = 1%nat.
Proof.
  intros Hl. pose proof (concat_readlines data) as Hc. rewrite Hl in Hc.
  split.
  - intros [H1 H2]. rewrite H2 in H1. simpl in H1.
    destruct ls; [|simpl in H1; lia]. simpl in Hc.
    rewrite app_nil_r in Hc. by subst.
  - intros Hd. destruct data as [|b [|? ?]]; simpl in Hd; try lia.
    rewrite readlines_singleton in Hl. by inversion Hl.
Qed.

(** The first line is a lone line-feed exactly when the content starts
    with one. *)
Lemma readlines_head_newline data l ls :
  readlines data = l :: ls → (head data = Some NEWLINE ↔ l = [NEWLINE]).
Proof.
  destruct data as [|x r]; [done|]. simpl.
  case_bool_decide as Hx.
  - intros [= <- _]. by subst.
  - destruct (readlines r) as [|l' ls'].
    + intros [= <- _]. split; intros [=]; done.
    + intros [= <- _]. split; intros [=]; done.
Qed.

(** The last line is a lone line-feed exactly when the content is a lone
    line-feed or ends in two of them. *)
Lemma readlines_last_blank data :
  last (readlines data) = Some [NEWLINE]
  ↔ data = [NEWLINE] ∨ ends_blank data.
Proof.
  split.
  - induction data as [|b rest IH]; [done|]. simpl.
    case_bool_decide as Hb.
    + subst b. destruct rest as [|b' rest']; [by left|].
      destruct (readlines (b' :: rest')) as [|l ls] eqn:E;
        [by apply readlines_cons_nonempty in E|].
      rewrite last_cons_cons. intros Hlast. right.
      destruct (IH Hlast) as [->|[k ->]].
      * by exists [].
      * by exists (NEWLINE :: k).
    + destruct (readlines rest) as [|l ls] eqn:E.
      * simpl. by intros [= ->].
      * destruct ls as [|l' ls'].
        -- simpl. intros [= -> _]. done.
        -- rewrite last_cons_cons. intros Hlast. right.
           rewrite last_cons_cons in IH.
           destruct (IH Hlast) as [->|[k ->]].
           ++ simpl in E. done.
           ++ by exists (b :: k).
  - intros [->|[k ->]]; [done|].
    rewrite (readlines_app_newline k [NEWLINE]).
    rewrite readlines_singleton. by rewrite last_snoc.
Qed.

Lemma ends_crlf_cons b l :
  ends_crlf (b :: l) ↔ (b = CARRIAGE_RETURN ∧ l = [NEWLINE]) ∨ ends_crlf l.
Proof.
  unfold ends_crlf. split.
  - intros [H|H]%suffix_cons_inv; [left|by right]. by inversion H.
  - intros [[-> ->]|H]; [done|]. by apply suffix_cons_r.
Qed.

Lemma fix_line_cons b l :
  fix_line (b :: l) =
  if bool_decide (b = CARRIAGE_RETURN ∧ l = [NEWLINE]) then [NEWLINE]
  else b :: fix_line l.
Proof.
  case_bool_decide as Hb.
  - destruct Hb as [-> ->]. exact (fix_line_crlf []).
  - destruct (decide (ends_crlf l)) as [[k ->]|Hl].
    + rewrite (fix_line_crlf k). exact (fix_line_crlf (b :: k)).
    + rewrite (fix_line_other l) by done. apply fix_line_other.
      rewrite ends_crlf_cons. tauto.
Qed.

Lemma fix_line_short ln : (length ln < 2)%nat → fix_line ln = ln.
Proof. intros H. apply fix_line_other. intros ?%ends_crlf_length. lia. Qed.

Lemma readlines_fix_line data :
  concat (fix_line <$> readlines data)
  = crlf_to_lf CARRIAGE_RETURN NEWLINE data.
Proof.
  induction data as [|b rest IH]; [done|]. simpl.
  case_bool_decide as Hb.
  - subst b. rewrite fmap_cons, concat_cons, IH.
    rewrite bool_decide_false by (by intros [? _]).
    by rewrite fix_line_short by (simpl; lia).
  - destruct (readlines rest) as [|l ls] eqn:E.
    + apply readlines_nil_inv in E. subst rest.
      rewrite bool_decide_false by (by intros [_ ?]).
      rewrite fmap_cons, concat_cons. by rewrite fix_line_short by (simpl; lia).
    + rewrite fmap_cons, concat_cons in IH.
      rewrite fmap_cons, concat_cons, fix_line_cons.
      pose proof (readlines_head_newline rest l ls E) as Hhead.
      destruct (decide (b = CARRIAGE_RETURN ∧ l = [NEWLINE])) as [Hc|Hc].
      * rewrite !bool_decide_true by tauto. rewrite <- IH.
        destruct Hc as [_ ->]. by rewrite fix_line_short by (simpl; lia).
      * rewrite !bool_decide_false by tauto. by rewrite <- IH.
Qed.

Lemma readlines_contains_crlf data :
  Exists ends_crlf (readlines data) ↔ contains_crlf data = true.
Proof.
  induction data as [|b rest IH]; simpl.
  - rewrite Exists_nil. done.
  - case_bool_decide as Hb.
    + subst b. rewrite Exists_cons, IH.
      rewrite bool_decide_false by (by intros [? _]). simpl.
      split; [intros [?%ends_crlf_length|?]; [simpl in *; lia|done]|by right].
    + destruct (readlines rest) as [|l ls] eqn:E.
      * apply readlines_nil_inv in E. subst rest. simpl.
        rewrite bool_decide_false by (by intros [_ ?]). simpl.
        rewrite Exists_cons, Exists_nil.
        split; [intros [?%ends_crlf_length|?]; [simpl in *; lia|done]|done].
      * rewrite Exists_cons in IH. rewrite Exists_cons, ends_crlf_cons.
        rewrite orb_true_iff, bool_decide_eq_true, <- IH.
        rewrite (readlines_head_newline rest l ls E). tauto.
Qed.

Lemma contains_crlf_spec data : contains_crlf data = true ↔ has_crlf data.
Proof.
  unfold has_crlf. induction data as [|b rest IH]; simpl.
  - split; [done|]. by intros ([|? ?] & ? & ?).
  - rewrite orb_true_iff, bool_decide_eq_true, IH. split.
    + intros [[-> Hh]|(p & q & ->)].
      * destruct rest as [|? q]; [done|]. injection Hh as ->.
        by exists [], q.
      * by exists (b :: p), q.
    + intros ([|x p] & q & Heq); simpl in Heq.
      * injection Heq as -> ->. by left.
      * injection Heq as -> ->. right. by exists p, q.
Qed.

(** ** [check_lines] on the lines of a file *)

Lemma py_getitem_head {A} msg (l : list A) (x : A) :
  head l = Some x → py_getitem msg l 0 = Ok x.
Proof. destruct l; [done|]. by intros [= ->]. Qed.

Lemma py_getitem_final {A} msg (l : list A) (x : A) :
  last l = Some x → py_getitem msg l (-1) = Ok x.
Proof. intros [l' ->]%last_Some. apply py_getitem_last. Qed.

(** The test of line 42 on a line. *)
Lemma blank_line_test (final : bytes) :
  (if bool_decide (length final = 1%nat) then
     b ← py_getitem bytes_index_error final 0; Ok (bool_decide (b = NEWLINE))
   else Ok false)
  = Ok (bool_decide (final = [NEWLINE])).
Proof.
  destruct final as [|x [|y t]]; simpl.
  - done.
  - f_equal. apply bool_decide_ext. split; [by intros ->|by intros [= ->]].
  - by rewrite bool_decide_false.
Qed.

Theorem check_lines_classify IS_WINDOWS filename data :
  check_lines IS_WINDOWS filename (readlines data)
  = Ok (classify IS_WINDOWS filename data).
Proof.
  destruct data as [|b rest]; [done|].
  unfold check_lines, classify.
  rewrite (bool_decide_false (b :: rest = [])) by done.
  pose proof (concat_readlines (b :: rest)) as Hjoin.
  pose proof (readlines_last_blank (b :: rest)) as Hblank.
  pose proof (readlines_contains_crlf (b :: rest)) as Hcrlf.
  pose proof (readlines_fix_line (b :: rest)) as Hfix.
  pose proof (readlines_one_byte (b :: rest)) as Hone.
  pose proof (readlines_cons_nonempty b rest) as Hne.
  set (data := b :: rest) in *. clearbody data.
  destruct (readlines data) as [|first ls] eqn:Hlines; [done|].
  rewrite <- Hlines in *. clear Hne.
  specialize (Hone first ls Hlines).
  rewrite bool_decide_false by (by rewrite Hlines).
  rewrite (py_getitem_head _ _ first) by (by rewrite Hlines).
  simpl mbind.
  assert (Hfirst :
    bool_decide (length (readlines data) = length first)
    && bool_decide (length first = 1%nat)
    = bool_decide (length data = 1%nat)).
  { rewrite Hlines. rewrite <- bool_decide_and. by apply bool_decide_ext. }
  unfold mbind at 1, Result_bind at 1. rewrite Hfirst.
  destruct (decide (length data = 1%nat)) as [Hlen|Hlen];
    [by rewrite !bool_decide_true by done|].
  rewrite !(bool_decide_false (length data = 1%nat)) by done.
  destruct (last (readlines data)) as [final|] eqn:Hlast;
    [|apply last_None in Hlast; congruence].
  rewrite (py_getitem_final _ _ final Hlast).
  unfold mbind at 1, Result_bind at 1.
  rewrite blank_line_test.
  unfold mbind at 1, Result_bind at 1.
  unfold bytes_join. rewrite Hjoin.
  assert (Hends : bool_decide (final = [NEWLINE])
                  = bool_decide (ends_blank data)).
  { apply bool_decide_ext. split.
    - intros ->. by destruct (proj1 Hblank eq_refl) as [->|?].
    - intros He. pose proof (proj2 Hblank (or_intror He)) as Hf.
      by injection Hf. }
  rewrite Hends.
  destruct (decide (ends_blank data)) as [Hend|Hend].
  { rewrite !bool_decide_true by done.
    by destruct (bytes_decode_utf8 data). }
  rewrite !(bool_decide_false (ends_blank data)) by done.
  destruct IS_WINDOWS; [done|].
  rewrite scan_loop_from_start by done.
  unfold mbind at 1, Result_bind at 1. cbv beta iota. simpl has_changes.
  assert (Hhas : bool_decide (Exists ends_crlf (readlines data))
                 = contains_crlf data).
  { destruct (contains_crlf data).
    - apply bool_decide_eq_true. by apply Hcrlf.
    - apply bool_decide_eq_false. rewrite Hcrlf. done. }
  rewrite Hhas. destruct (contains_crlf data); [|done].
  simpl. rewrite Hjoin, Hfix.
  destruct (bytes_decode_utf8 data); [|done]. simpl.
  by destruct (bytes_decode_utf8 (crlf_to_lf CARRIAGE_RETURN NEWLINE data)).
Qed.

(** ** The UTF-8 codec *)

Ltac Zify.zify_post_hook ::= Z.to_euclidean_division_equations.

Lemma byte_to_N_lt b : Byte.to_N b < 256.
Proof. pose proof (Byte.to_N_bounded b). lia. Qed.

Lemma to_N_byte_of_N n : n < 256 → Byte.to_N (byte_of_N n) = n.
Proof.
  intros Hn. unfold byte_of_N. destruct (Byte.of_N n) as [b|] eqn:E.
  - by apply Byte.to_of_N.
  - apply Byte.of_N_None_iff in E. lia.
Qed.

Lemma byte_of_N_eq n b : n = Byte.to_N b → byte_of_N n = b.
Proof. intros ->. unfold byte_of_N. by rewrite Byte.of_to_N. Qed.

Lemma Result_fmap_Ok_inv {A B} (f : A → B) (m : Result A) (y : B) :
  f <$> m = Ok y → ∃ x, m = Ok x ∧ y = f x.
Proof. destruct m as [x|e]; [|done]. intros [= <-]. by exists x. Qed.

(** Case analysis on the comparisons of the decoder and the encoder. *)
Ltac split_ltb :=
  repeat match goal with
  | |- context [N.ltb ?a ?b] => destruct (N.ltb_spec a b); try lia
  | |- context [N.leb ?a ?b] => destruct (N.leb_spec a b); try lia
  | |- context [N.eqb ?a ?b] => destruct (N.eqb_spec a b); try lia
  end.

Lemma utf8_decode_encode_char obj pos c rest :
  is_scalar c →
  utf8_decode_from obj pos (utf8_encode_char c ++ rest)
  = cons c <$> utf8_decode_from obj (pos + length (utf8_encode_char c)) rest.
Proof.
  intros Hc. unfold is_scalar in Hc. unfold utf8_encode_char.
  destruct (N.ltb_spec c 0x80) as [H1|H1];
    [|destruct (N.ltb_spec c 0x800) as [H2|H2];
      [|destruct (N.ltb_spec c 0x10000) as [H3|H3]]].
  - simpl. rewrite to_N_byte_of_N by lia.
    destruct (N.ltb_spec c 0x80); [done|lia].
  - simpl. unfold is_continuation, low6. rewrite !to_N_byte_of_N by lia.
    split_ltb. simpl. do 2 f_equal. lia.
  - simpl. unfold second_ok, is_continuation, low6.
    rewrite !to_N_byte_of_N by lia.
    split_ltb; simpl; do 2 f_equal; lia.
  - simpl. unfold second_ok, is_continuation, low6.
    rewrite !to_N_byte_of_N by lia.
    split_ltb; simpl; do 2 f_equal; lia.
Qed.


Lemma utf8_encode_cons c s :
  utf8_encode (c :: s) = utf8_encode_char c ++ utf8_encode s.
Proof. reflexivity. Qed.

Lemma utf8_encode_app s t :
  utf8_encode (s ++ t) = utf8_encode s ++ utf8_encode t.
Proof. unfold utf8_encode. apply bind_app. Qed.

(** Decoding inverts encoding. *)
Lemma utf8_decode_encode obj s : ∀ pos,
  Forall is_scalar s → utf8_decode_from obj pos (utf8_encode s) = Ok s.
Proof.
  induction s as [|c s IH]; intros pos Hs; [done|].
  inversion Hs as [|? ? Hc Hs']; subst.
  rewrite utf8_encode_cons, utf8_decode_encode_char by done.
  by rewrite IH.
Qed.

(** One decoding step, read backwards: a successful decode starts with the
    encoding of a scalar value. *)
Lemma utf8_decode_step obj pos b0 r0 s :
  utf8_decode_from obj pos (b0 :: r0) = Ok s →
  ∃ c s' rest k,
    s = c :: s' ∧ is_scalar c ∧ b0 :: r0 = utf8_encode_char c ++ rest
    ∧ (length rest < length (b0 :: r0))%nat
    ∧ utf8_decode_from obj (pos + k) rest = Ok s'.
Proof.
  pose proof (byte_to_N_lt b0) as Hb0.
  simpl. unfold second_ok, is_continuation, low6, is_scalar.
  destruct (N.ltb_spec (Byte.to_N b0) 0x80) as [H1|H1].
  { intros (s' & Hs' & ->)%Result_fmap_Ok_inv.
    exists (Byte.to_N b0), s', r0, 1%nat. split_and!; [done|lia| |simpl; lia|done].
    unfold utf8_encode_char. split_ltb. simpl. f_equal. symmetry.
    by apply byte_of_N_eq. }
  destruct (N.ltb_spec (Byte.to_N b0) 0xC2) as [H2|H2]; [done|].
  destruct (N.ltb_spec (Byte.to_N b0) 0xE0) as [H3|H3].
  { destruct r0 as [|b1 r1]; [done|].
    pose proof (byte_to_N_lt b1) as Hb1.
    destruct (N.leb_spec 0x80 (Byte.to_N b1)); [|done].
    destruct (N.ltb_spec (Byte.to_N b1) 0xC0); [|done]. simpl.
    intros (s' & Hs' & ->)%Result_fmap_Ok_inv.
    eexists _, s', r1, 2%nat. split_and!; [done|lia| |simpl; lia|done].
    unfold utf8_encode_char. split_ltb. simpl.
    repeat f_equal; symmetry; apply byte_of_N_eq; lia. }
  destruct (N.ltb_spec (Byte.to_N b0) 0xF0) as [H4|H4].
  { destruct r0 as [|b1 r1]; [done|].
    pose proof (byte_to_N_lt b1) as Hb1.
    destruct (N.leb_spec 0x80 (Byte.to_N b1)); [|done].
    destruct (N.ltb_spec (Byte.to_N b1) 0xC0); [|done]. simpl.
    destruct r1 as [|b2 r2]; [by split_ltb|].
    pose proof (byte_to_N_lt b2) as Hb2.
    destruct (N.leb_spec 0x80 (Byte.to_N b2)); [|by split_ltb].
    destruct (N.ltb_spec (Byte.to_N b2) 0xC0); [|by split_ltb]. simpl.
    split_ltb; try done;
      intros (s' & Hs' & ->)%Result_fmap_Ok_inv;
      (eexists _, s', r2, 3%nat; split_and!; [done|lia| |simpl; lia|done]);
      unfold utf8_encode_char; split_ltb; simpl;
      repeat f_equal; symmetry; apply byte_of_N_eq; lia. }
  destruct (N.ltb_spec (Byte.to_N b0) 0xF5) as [H5|H5]; [|done].
  destruct r0 as [|b1 r1]; [done|].
  pose proof (byte_to_N_lt b1) as Hb1.
  destruct (N.leb_spec 0x80 (Byte.to_N b1)); [|done].
  destruct (N.ltb_spec (Byte.to_N b1) 0xC0); [|done]. simpl.
  destruct r1 as [|b2 r2]; [by split_ltb|].
  pose proof (byte_to_N_lt b2) as Hb2.
  destruct (N.leb_spec 0x80 (Byte.to_N b2)); [|by split_ltb].
  destruct (N.ltb_spec (Byte.to_N b2) 0xC0); [|by split_ltb]. simpl.
  destruct r2 as [|b3 r3]; [by split_ltb|].
  pose proof (byte_to_N_lt b3) as Hb3.
  destruct (N.leb_spec 0x80 (Byte.to_N b3)); [|by split_ltb].
  destruct (N.ltb_spec (Byte.to_N b3) 0xC0); [|by split_ltb]. simpl.
  split_ltb; try done;
    intros (s' & Hs' & ->)%Result_fmap_Ok_inv;
    (eexists _, s', r3, 4%nat; split_and!; [done|lia| |simpl; lia|done]);
    unfold utf8_encode_char; split_ltb; simpl;
    repeat f_equal; symmetry; apply byte_of_N_eq; lia.
Qed.

(** A successful decode yields scalar values whose encoding is the input:
    encoding inverts decoding. *)
Lemma utf8_decode_inv obj bs : ∀ pos s,
  utf8_decode_from obj pos bs = Ok s →
  utf8_encode s = bs ∧ Forall is_scalar s.
Proof.
  induction bs as [bs IH] using (induction_ltof1 _ (@length byte)).
  unfold ltof in IH. intros pos s Hdec.
  destruct bs as [|b0 r0].
  - simpl in Hdec. injection Hdec as <-. by split.
  - apply utf8_decode_step in Hdec
      as (c & s' & rest & k & -> & Hc & Hbs & Hlen & Hrest).
    destruct (IH rest Hlen _ _ Hrest) as [Henc Hsc].
    split; [|by constructor].
    by rewrite utf8_encode_cons, Henc.
Qed.

Lemma bytes_decode_utf8_inv data s :
  bytes_decode_utf8 data = Ok s → utf8_encode s = data ∧ Forall is_scalar s.
Proof. apply utf8_decode_inv. Qed.

Lemma bytes_decode_utf8_encode s :
  Forall is_scalar s → bytes_decode_utf8 (utf8_encode s) = Ok s.
Proof. apply utf8_decode_encode. Qed.

(** Decoded text holds scalar values only. *)
Lemma utf8_decode_scalar data s :
  bytes_decode_utf8 data = Ok s → Forall is_scalar s.
Proof. intros H. by apply bytes_decode_utf8_inv in H as [_ ?]. Qed.

(** The only exception the decoder raises is [UnicodeDecodeError]. *)
Lemma utf8_decode_from_error obj bs : ∀ pos e,
  utf8_decode_from obj pos bs = Raise e →
  class_name e = "UnicodeDecodeError".
Proof.
  induction bs as [bs IH] using (induction_ltof1 _ (@length byte)).
  unfold ltof in IH. intros pos e.
  assert (Hrec : ∀ (c : N) k rest, (length rest < length bs)%nat →
    cons c <$> utf8_decode_from obj (pos + k) rest = Raise e →
    class_name e = "UnicodeDecodeError").
  { intros c k rest Hlen Hr.
    destruct (utf8_decode_from obj (pos + k) rest) eqn:E; [done|].
    injection Hr as <-. by eapply IH. }
  destruct bs as [|b0 r0]; [done|]. simpl.
  repeat match goal with
  | |- (if ?c then _ else _) = _ → _ => destruct c
  | |- match ?l with [] => _ | _ :: _ => _ end = _ → _ => destruct l
  | |- Raise _ = Raise _ → _ => by intros [= <-]
  | |- cons _ <$> _ = Raise _ → _ => apply Hrec; simpl; lia
  end.
Qed.

Lemma bytes_decode_utf8_error data e :
  bytes_decode_utf8 data = Raise e → class_name e = "UnicodeDecodeError".
Proof. apply utf8_decode_from_error. Qed.


(** *** Single-byte characters inside encoded text *)

Lemma utf8_encode_char_nonempty c : utf8_encode_char c ≠ [].
Proof. unfold utf8_encode_char. by repeat case_match. Qed.

(** In the encoding of a scalar value, a byte below 0x80 is the whole
    encoding: multi-byte sequences use bytes from 0x80 up only. *)
Lemma utf8_encode_char_ascii c b :
  is_scalar c → b ∈ utf8_encode_char c → Byte.to_N b < 0x80 →
  utf8_encode_char c = [b] ∧ c = Byte.to_N b.
Proof.
  unfold is_scalar, utf8_encode_char. intros Hc Hin Hb.
  assert (Hhigh : ∀ n, 0x80 ≤ n → n < 256 → b ≠ byte_of_N n).
  { intros n H1 H2 ->. rewrite to_N_byte_of_N in Hb; lia. }
  destruct (N.ltb_spec c 0x80) as [H1|H1];
    [|destruct (N.ltb_spec c 0x800) as [H2|H2];
      [|destruct (N.ltb_spec c 0x10000) as [H3|H3]]].
  { apply list_elem_of_singleton in Hin as ->.
    by rewrite to_N_byte_of_N by lia. }
  all: exfalso;
    repeat (apply elem_of_cons in Hin as [Hin|Hin];
            [eapply Hhigh; [| |exact Hin]; lia|]);
    by apply elem_of_nil in Hin.
Qed.

Lemma utf8_encode_char_newline c :
  is_scalar c → NEWLINE ∈ utf8_encode_char c → c = 10.
Proof.
  intros Hc Hin.
  by destruct (utf8_encode_char_ascii c NEWLINE Hc Hin) as [_ ->].
Qed.

Lemma utf8_encode_char_cr c :
  is_scalar c → CARRIAGE_RETURN ∈ utf8_encode_char c → c = 13.
Proof.
  intros Hc Hin.
  by destruct (utf8_encode_char_ascii c CARRIAGE_RETURN Hc Hin) as [_ ->].
Qed.

Lemma utf8_encode_head_newline s :
  Forall is_scalar s →
  (head (utf8_encode s) = Some NEWLINE ↔ head s = Some 10).
Proof.
  destruct s as [|c s]; [done|]. intros [Hc _]%Forall_cons.
  rewrite utf8_encode_cons.
  change (head (c :: s)) with (Some c). split.
  - pose proof (utf8_encode_char_nonempty c) as Hne.
    destruct (utf8_encode_char c) as [|b t] eqn:E; [done|].
    simpl. intros [= ->]. f_equal.
    apply utf8_encode_char_newline; [done|]. rewrite E. by left.
  - by intros [= ->].
Qed.

Lemma utf8_encode_last_newline s :
  Forall is_scalar s →
  (last (utf8_encode s) = Some NEWLINE ↔ last s = Some 10).
Proof.
  destruct s as [|c s _] using rev_ind; [done|].
  intros [_ [Hc _]%Forall_cons]%Forall_app.
  rewrite utf8_encode_app, last_snoc.
  change (utf8_encode [c]) with (utf8_encode_char c ++ []).
  rewrite app_nil_r. split.
  - pose proof (utf8_encode_char_nonempty c) as Hne.
    destruct (utf8_encode_char c) as [|b t _] eqn:E using rev_ind; [done|].
    rewrite app_assoc, last_snoc. intros [= ->]. f_equal.
    apply utf8_encode_char_newline; [done|]. rewrite E.
    apply elem_of_app. right. by left.
  - intros [= ->]. change (utf8_encode_char 10) with [NEWLINE].
    by rewrite last_snoc.
Qed.

(** *** Deleting carriage-returns before line-feeds *)

Section crlf_to_lf.
Context {A : Type} `{EqDecision A} (cr lf : A).

Lemma crlf_to_lf_app_keep l r :
  Forall (λ y, y ≠ cr) l →
  crlf_to_lf cr lf (l ++ r) = l ++ crlf_to_lf cr lf r.
Proof.
  induction 1 as [|y l Hy _ IH]; [done|]. simpl.
  rewrite bool_decide_false by (by intros [? _]). by rewrite IH.
Qed.

Lemma crlf_to_lf_Forall (P : A → Prop) l :
  Forall P l → Forall P (crlf_to_lf cr lf l).
Proof.
  induction 1 as [|y l Hy _ IH]; [done|]. simpl.
  case_bool_decide; [done|by constructor].
Qed.

Lemma crlf_to_lf_nil_inv l : crlf_to_lf cr lf l = [] → l = [].
Proof.
  induction l as [|x rest IH]; [done|]. simpl.
  case_bool_decide as Hx; [|done].
  intros Hr. rewrite (IH Hr) in Hx. by destruct Hx.
Qed.
End crlf_to_lf.

(** Deleting the carriage-returns commutes with encoding. *)
Lemma utf8_encode_crlf_to_lf s :
  Forall is_scalar s →
  crlf_to_lf CARRIAGE_RETURN NEWLINE (utf8_encode s)
  = utf8_encode (crlf_to_lf 13 10 s).
Proof.
  induction s as [|c s IH]; [done|]. intros [Hc Hs]%Forall_cons.
  specialize (IH Hs). rewrite utf8_encode_cons.
  change (crlf_to_lf 13 10 (c :: s)) with
    (if bool_decide (c = 13 ∧ head s = Some 10) then crlf_to_lf 13 10 s
     else c :: crlf_to_lf 13 10 s).
  destruct (decide (c = 13)) as [->|Hc13].
  - change (utf8_encode_char 13) with [CARRIAGE_RETURN]. simpl.
    pose proof (utf8_encode_head_newline s Hs) as Hh.
    destruct (decide (head s = Some 10)) as [H10|H10].
    + rewrite !bool_decide_true by tauto. done.
    + rewrite !bool_decide_false by tauto.
      rewrite utf8_encode_cons. simpl. by rewrite IH.
  - rewrite bool_decide_false by tauto.
    rewrite crlf_to_lf_app_keep, IH; [done|].
    apply Forall_forall. intros b Hb ->.
    by apply Hc13, utf8_encode_char_cr.
Qed.


(** *** Stripping trailing line-feeds *)

Section strip_trailing.
Context {A : Type} `{EqDecision A} (x : A).

Lemma strip_trailing_cons y l :
  strip_trailing x (y :: l) =
  match strip_trailing x l with
  | [] => if bool_decide (y = x) then [] else [y]
  | r => y :: r
  end.
Proof. reflexivity. Qed.

(** The result does not end in [x]. *)
Lemma strip_trailing_last l : last (strip_trailing x l) ≠ Some x.
Proof.
  induction l as [|y l IH]; [done|]. rewrite strip_trailing_cons.
  destruct (strip_trailing x l) as [|z r].
  - case_bool_decide; [done|]. simpl. congruence.
  - by rewrite last_cons_cons.
Qed.

(** Only a run of [x] at the end is removed. *)
Lemma strip_trailing_decompose l :
  ∃ k, l = strip_trailing x l ++ replicate k x.
Proof.
  induction l as [|y l [k IH]]; [by exists 0%nat|].
  rewrite strip_trailing_cons.
  destruct (strip_trailing x l) as [|z r].
  - simpl in IH. case_bool_decide as Hy.
    + subst y. exists (S k). simpl. by f_equal.
    + exists k. simpl. by f_equal.
  - exists k. simpl. by f_equal.
Qed.

Lemma strip_trailing_keep l : last l ≠ Some x → strip_trailing x l = l.
Proof.
  induction l as [|y l IH]; [done|]. rewrite strip_trailing_cons.
  destruct l as [|z l].
  - simpl. intros Hy. rewrite bool_decide_false; congruence.
  - rewrite last_cons_cons. intros Hl. rewrite (IH Hl). done.
Qed.

Lemma strip_trailing_app l r :
  strip_trailing x (l ++ r) =
  match strip_trailing x r with
  | [] => strip_trailing x l
  | r' => l ++ r'
  end.
Proof.
  induction l as [|y l IH]; simpl.
  - by destruct (strip_trailing x r).
  - rewrite IH. destruct (strip_trailing x r) as [|z r']; [done|].
    by destruct l.
Qed.

Lemma strip_trailing_nil_inv l :
  strip_trailing x l = [] → l = replicate (length l) x.
Proof.
  induction l as [|y l IH]; [done|]. rewrite strip_trailing_cons.
  destruct (strip_trailing x l) as [|z r]; [|done].
  case_bool_decide as Hy; [|done]. subst y. intros _. simpl.
  f_equal. by apply IH.
Qed.
End strip_trailing.

(** [rstrip] with the one-character set is [strip_trailing]. *)
Lemma rstrip_newline s : rstrip [10] s = strip_trailing 10 s.
Proof.
  induction s as [|c s IH]; [done|]. simpl. rewrite IH.
  destruct (strip_trailing 10 s); [|done].
  destruct (decide (c = 10)) as [->|Hc]; [done|].
  rewrite !bool_decide_false; [done|done|].
  by intros ->%list_elem_of_singleton.
Qed.

(** Stripping trailing line-feeds commutes with encoding. *)
Lemma utf8_encode_strip_trailing s :
  Forall is_scalar s →
  strip_trailing NEWLINE (utf8_encode s) = utf8_encode (strip_trailing 10 s).
Proof.
  intros Hs. destruct (strip_trailing_decompose 10 s) as [k Hk].
  pose proof (strip_trailing_last 10 s) as Hlast.
  set (t := strip_trailing 10 s) in *. clearbody t.
  assert (Ht : Forall is_scalar t).
  { rewrite Hk in Hs. by apply Forall_app in Hs as [? _]. }
  rewrite Hk, utf8_encode_app, strip_trailing_app.
  assert (Hrep : utf8_encode (replicate k 10) = replicate k NEWLINE).
  { clear. induction k as [|k IH]; [done|].
    change (replicate (S k) 10) with (10 :: replicate k 10).
    by rewrite utf8_encode_cons, IH. }
  assert (Hnil : strip_trailing NEWLINE (replicate k NEWLINE) = []).
  { clear. induction k as [|k IH]; [done|]. simpl. by rewrite IH. }
  rewrite Hrep, Hnil. apply strip_trailing_keep.
  by rewrite utf8_encode_last_newline; [congruence|].
Qed.


(** ** Running the classifier on a fixed file *)

Lemma contains_crlf_app_l l r :
  contains_crlf l = true → contains_crlf (l ++ r) = true.
Proof.
  rewrite !contains_crlf_spec. intros (p & q & ->).
  exists p, (q ++ r). by rewrite <- app_assoc.
Qed.

Lemma ends_blank_cons b l :
  ends_blank (b :: l) ↔ (b = NEWLINE ∧ l = [NEWLINE]) ∨ ends_blank l.
Proof.
  unfold ends_blank. split.
  - intros [H|H]%suffix_cons_inv; [left|by right]. by inversion H.
  - intros [[-> ->]|H]; [done|]. by apply suffix_cons_r.
Qed.

Lemma ends_blank_last l : ends_blank l → last l = Some NEWLINE.
Proof. intros [k ->]. by rewrite (last_app_cons k), last_cons_cons. Qed.

(** What is left of a file after the trailing-newline fix raises no
    finding, as long as something other than line-feeds is left and no DOS
    newline awaits the scan. *)
Lemma classify_after_strip IS_WINDOWS filename data :
  ends_blank data →
  strip_trailing NEWLINE data ≠ [] →
  IS_WINDOWS = true ∨ contains_crlf data = false →
  classify IS_WINDOWS filename (strip_trailing NEWLINE data ++ [NEWLINE])
  = None.
Proof.
  intros Hblank Hne Hdos.
  destruct (strip_trailing_decompose NEWLINE data) as [k Hk].
  pose proof (strip_trailing_last NEWLINE data) as Hlast.
  set (t := strip_trailing NEWLINE data) in *. clearbody t.
  unfold classify.
  rewrite bool_decide_false by (by destruct t).
  rewrite bool_decide_false
    by (rewrite length_app; destruct t; simpl; [done|lia]).
  rewrite bool_decide_false.
  2:{ intros [p Hp]. destruct Hlast.
      change [NEWLINE; NEWLINE] with ([NEWLINE] ++ [NEWLINE]) in Hp.
      rewrite app_assoc in Hp. apply app_inj_tail in Hp as [-> _].
      by rewrite last_snoc. }
  destruct Hdos as [->|Hdos]; [done|].
  destruct IS_WINDOWS; [done|].
  destruct (contains_crlf (t ++ [NEWLINE])) eqn:Hc; [|done].
  destruct k as [|k].
  - simpl in Hk. rewrite app_nil_r in Hk. subst data.
    apply ends_blank_last in Hblank. done.
  - rewrite Hk in Hdos. simpl in Hdos.
    rewrite (cons_middle NEWLINE), app_assoc in Hdos.
    by rewrite contains_crlf_app_l in Hdos.
Qed.

Lemma crlf_to_lf_head_newline l :
  head (crlf_to_lf CARRIAGE_RETURN NEWLINE l) = Some NEWLINE →
  head l = Some NEWLINE ∨ ∃ r, l = CARRIAGE_RETURN :: NEWLINE :: r.
Proof.
  destruct l as [|x rest]; [done|]. simpl.
  case_bool_decide as Hx.
  - destruct Hx as [-> Hh]. destruct rest as [|y r]; [done|].
    injection Hh as ->. intros _. right. by exists r.
  - simpl. intros [= ->]. by left.
Qed.

(** A DOS newline survives the fix only where the carriage-return was
    doubled. *)
Lemma crlf_to_lf_contains_crlf l :
  contains_crlf (crlf_to_lf CARRIAGE_RETURN NEWLINE l) = true →
  ∃ p q, l = p ++ CARRIAGE_RETURN :: CARRIAGE_RETURN :: NEWLINE :: q.
Proof.
  induction l as [|x rest IH]; [done|]. simpl.
  case_bool_decide as Hx.
  - intros (p & q & ->)%IH. by exists (x :: p), q.
  - simpl. rewrite orb_true_iff, bool_decide_eq_true.
    intros [[-> Hh]|(p & q & ->)%IH]; [|by exists (x :: p), q].
    apply crlf_to_lf_head_newline in Hh as [Hh|[r ->]]; [tauto|].
    by exists [], r.
Qed.

Lemma crlf_to_lf_singleton_inv l b :
  crlf_to_lf CARRIAGE_RETURN NEWLINE l = [b] →
  l = [b] ∨ l = [CARRIAGE_RETURN; NEWLINE].
Proof.
  destruct l as [|x rest]; [done|]. simpl.
  case_bool_decide as Hx.
  - destruct Hx as [-> Hh]. destruct rest as [|y r]; [done|].
    injection Hh as ->. simpl. intros [= <- Hr].
    apply crlf_to_lf_nil_inv in Hr as ->. by right.
  - intros [= <- Hr]. apply crlf_to_lf_nil_inv in Hr as ->. by left.
Qed.

(** The fix leaves a blank last line only where one was, or where the last
    line was a lone DOS newline. *)
Lemma crlf_to_lf_ends_blank l :
  ends_blank (crlf_to_lf CARRIAGE_RETURN NEWLINE l) →
  ends_blank l ∨ [NEWLINE; CARRIAGE_RETURN; NEWLINE] `suffix_of` l.
Proof.
  induction l as [|x rest IH]; [by intros [[|? [|? ?]] ?]|]. simpl.
  case_bool_decide as Hx.
  - intros [H|H]%IH; [left|right].
    + apply ends_blank_cons. by right.
    + by apply suffix_cons_r.
  - rewrite ends_blank_cons.
    intros [[-> Hr]|[H|H]%IH].
    + apply crlf_to_lf_singleton_inv in Hr as [-> | ->];
        [left|right]; by exists [].
    + left. apply ends_blank_cons. by right.
    + right. by apply suffix_cons_r.
Qed.

(** What is left of a file after the DOS-newline fix raises no finding,
    unless its last line was a lone DOS newline or a line ended in a doubled
    carriage-return. *)
Lemma classify_after_crlf_to_lf IS_WINDOWS filename data :
  data ≠ [] → length data ≠ 1%nat → ¬ ends_blank data →
  data ≠ [CARRIAGE_RETURN; NEWLINE] →
  ¬ [NEWLINE; CARRIAGE_RETURN; NEWLINE] `suffix_of` data →
  (¬ ∃ p q, data = p ++ CARRIAGE_RETURN :: CARRIAGE_RETURN :: NEWLINE :: q) →
  classify IS_WINDOWS filename (crlf_to_lf CARRIAGE_RETURN NEWLINE data)
  = None.
Proof.
  intros Hne Hlen Hblank Hlone Hlast Hdouble. unfold classify.
  rewrite bool_decide_false by (by intros ?%crlf_to_lf_nil_inv).
  rewrite bool_decide_false.
  2:{ intros Hl.
      destruct (crlf_to_lf CARRIAGE_RETURN NEWLINE data) as [|b [|? ?]] eqn:E;
        try done.
      apply crlf_to_lf_singleton_inv in E as [-> | ->]; done. }
  rewrite bool_decide_false by (intros ?%crlf_to_lf_ends_blank; tauto).
  destruct IS_WINDOWS; [done|].
  destruct (contains_crlf _) eqn:E; [|done].
  by apply crlf_to_lf_contains_crlf in E.
Qed.


(** ** [check_file] on a file that exists *)

Lemma check_file_classify IS_WINDOWS filename w data :
  files w !! filename = Some data →
  check_file IS_WINDOWS filename w
  = (Ok (classify IS_WINDOWS filename data),
     logging_debug ("Checking file " +:+ filename) w).
Proof.
  intros Hf. unfold check_file. simpl. rewrite Hf.
  by rewrite check_lines_classify.
Qed.

Lemma check_file_result IS_WINDOWS filename w data :
  files w !! filename = Some data →
  (check_file IS_WINDOWS filename w).1
  = Ok (classify IS_WINDOWS filename data).
Proof. intros Hf. by rewrite (check_file_classify _ _ _ data Hf). Qed.

Lemma world_with_lookup filename data :
  files (world_with filename data) !! filename = Some data.
Proof. apply lookup_singleton_eq. Qed.

Lemma classify_one_byte IS_WINDOWS filename b :
  classify IS_WINDOWS filename [b] = Some (bare_newline_message filename).
Proof. reflexivity. Qed.

Lemma ends_blank_length data : ends_blank data → (2 ≤ length data)%nat.
Proof. intros [k ->]. rewrite length_app. simpl. lia. Qed.

Lemma classify_blank IS_WINDOWS filename data :
  ends_blank data →
  classify IS_WINDOWS filename data
  = Some (match bytes_decode_utf8 data with
          | Raise err => decode_failure_message filename err
          | Ok orig => trailing_newline_message filename orig
          end).
Proof.
  intros Hb. pose proof (ends_blank_length data Hb) as Hlen.
  unfold classify.
  rewrite bool_decide_false by (intros ->; simpl in Hlen; lia).
  rewrite bool_decide_false by lia.
  by rewrite bool_decide_true.
Qed.

Lemma classify_scan IS_WINDOWS filename data :
  data ≠ [] → length data ≠ 1%nat → ¬ ends_blank data →
  classify IS_WINDOWS filename data
  = if IS_WINDOWS then None
    else if contains_crlf data then
      Some (match bytes_decode_utf8 data with
            | Raise err => decode_failure_message filename err
            | Ok orig =>
                match
                  bytes_decode_utf8 (crlf_to_lf CARRIAGE_RETURN NEWLINE data)
                with
                | Raise err => decode_failure_message filename err
                | Ok repl => dos_newline_message filename orig repl
                end
            end)
    else None.
Proof.
  intros H1 H2 H3. unfold classify. by rewrite !bool_decide_false.
Qed.

(** The DOS-newline fix of valid UTF-8 is valid UTF-8: the second decode of
    line 88 cannot fail once the first has succeeded. *)
Lemma decode_crlf_to_lf data orig :
  bytes_decode_utf8 data = Ok orig →
  bytes_decode_utf8 (crlf_to_lf CARRIAGE_RETURN NEWLINE data)
  = Ok (crlf_to_lf 13 10 orig).
Proof.
  intros [<- Hs]%bytes_decode_utf8_inv.
  rewrite utf8_encode_crlf_to_lf by done.
  apply bytes_decode_utf8_encode. by apply crlf_to_lf_Forall.
Qed.


(** * The claims *)

(** ** The one-byte file *)

(** C1, counterexample: the claim has a one-byte file produce no finding
    unless its byte is the line-feed; the file holding the single letter
    [a] is reported like the file holding a single line-feed. *)
Lemma one_byte_letter_is_reported :
  "a"%byte ≠ NEWLINE
  ∧ (check_file false "a.txt" (world_with "a.txt" ["a"%byte])).1
    = Ok (Some (bare_newline_message "a.txt")).
Proof. split; [done|]. by rewrite (check_file_result _ _ _ ["a"%byte]). Qed.

(** C1, as amended: for every file whose content is exactly one byte,
    whatever that byte is, [check_file] produces the bare-newline finding
    (the one named "testestTrailing newline" in the code), with no original
    and no replacement; the code does not look at the byte ("file is wrong
    whether or not the only byte is a newline", line 29). *)
Theorem check_file_one_byte IS_WINDOWS filename w b :
  files w !! filename = Some [b] →
  ∃ m, (check_file IS_WINDOWS filename w).1 = Ok (Some m)
       ∧ m = bare_newline_message filename
       ∧ name m = "testestTrailing newline"
       ∧ original m = None ∧ replacement m = None.
Proof.
  intros Hf. exists (bare_newline_message filename).
  by rewrite (check_file_result _ _ _ [b] Hf).
Qed.

Lemma check_file_one_byte_witness :
  ∃ m, (check_file false "n.txt" (world_with "n.txt" [NEWLINE])).1
       = Ok (Some m)
       ∧ m = bare_newline_message "n.txt"
       ∧ name m = "testestTrailing newline"
       ∧ original m = None ∧ replacement m = None.
Proof.
  apply (check_file_one_byte false "n.txt" (world_with "n.txt" [NEWLINE])
           NEWLINE).
  apply world_with_lookup.
Defined.

(** ** The trailing-newline fix *)

(** C5: for every valid-UTF-8 file whose content ends in two or more
    line-feed bytes, [check_file] returns the finding named
    "Trailing newline" whose original is the decoded content and whose
    replacement is the original with all trailing line-feeds stripped and
    one line-feed appended; so do the bytes of ["hello\n\n"], with
    replacement ["hello\n"]. *)
Theorem check_file_trailing_newline :
  (∀ IS_WINDOWS filename w data orig,
     files w !! filename = Some data →
     bytes_decode_utf8 data = Ok orig →
     ends_blank data →
     ∃ m, (check_file IS_WINDOWS filename w).1 = Ok (Some m)
          ∧ name m = "Trailing newline"
          ∧ original m = Some orig
          ∧ replacement m = Some (strip_trailing 10 orig ++ [10]))
  ∧ (∀ IS_WINDOWS filename w,
       files w !! filename = Some (String.list_byte_of_string "hello" ++ [NEWLINE; NEWLINE]) →
       ∃ m, (check_file IS_WINDOWS filename w).1 = Ok (Some m)
            ∧ name m = "Trailing newline"
            ∧ original m = Some [104; 101; 108; 108; 111; 10; 10]
            ∧ replacement m = Some [104; 101; 108; 108; 111; 10]).
Proof.
  assert (Hgen : ∀ IS_WINDOWS filename w data orig,
     files w !! filename = Some data →
     bytes_decode_utf8 data = Ok orig →
     ends_blank data →
     ∃ m, (check_file IS_WINDOWS filename w).1 = Ok (Some m)
          ∧ name m = "Trailing newline"
          ∧ original m = Some orig
          ∧ replacement m = Some (strip_trailing 10 orig ++ [10])).
  { intros IS_WINDOWS filename w data orig Hf Hdec Hblank.
    exists (trailing_newline_message filename orig).
    rewrite (check_file_result _ _ _ data Hf), classify_blank, Hdec by done.
    simpl. by rewrite rstrip_newline. }
  split; [exact Hgen|].
  intros IS_WINDOWS filename w Hf.
  apply (Hgen IS_WINDOWS filename w _ [104; 101; 108; 108; 111; 10; 10] Hf);
    [reflexivity|].
  by exists (String.list_byte_of_string "hello").
Qed.

Lemma check_file_trailing_newline_witness :
  ∃ m, (check_file false "h.txt"
          (world_with "h.txt" [NEWLINE; NEWLINE; NEWLINE])).1 = Ok (Some m)
       ∧ name m = "Trailing newline"
       ∧ original m = Some [10; 10; 10]
       ∧ replacement m = Some ([] ++ [10]).
Proof.
  apply (proj1 check_file_trailing_newline false "h.txt"
           (world_with "h.txt" [NEWLINE; NEWLINE; NEWLINE])
           [NEWLINE; NEWLINE; NEWLINE] [10; 10; 10]).
  - apply world_with_lookup.
  - reflexivity.
  - by exists [NEWLINE].
Defined.


(** ** One finding, in priority order *)

(** C6: [check_file] returns at most one finding (its result is a single
    optional message).  An empty file gives none.  The checks short-circuit
    in order: a one-byte file gets the bare-newline finding whatever else
    holds of it; otherwise a file whose last line is a lone line-feed gets
    the trailing-newline finding or a decode failure, never the DOS-newline
    finding, even when some line ends in carriage-return, line-feed; and
    only when neither check fired can the DOS-newline scan report. *)
Theorem check_file_priority IS_WINDOWS filename w data :
  files w !! filename = Some data →
  ∃ r : option LintMessage,
    (check_file IS_WINDOWS filename w).1 = Ok r
    ∧ (data = [] → r = None)
    ∧ (length data = 1%nat → r = Some (bare_newline_message filename))
    ∧ (length data ≠ 1%nat → last (readlines data) = Some [NEWLINE] →
       ∃ m, r = Some m
            ∧ (name m = "Trailing newline" ∨ name m = "Decoding failure"))
    ∧ (∀ m, r = Some m → name m = "DOS newline" →
       length data ≠ 1%nat ∧ last (readlines data) ≠ Some [NEWLINE]
       ∧ Exists ends_crlf (readlines data)).
Proof.
  intros Hf. exists (classify IS_WINDOWS filename data).
  split; [by apply check_file_result|].
  split; [by intros ->|].
  split.
  { intros Hlen. destruct data as [|b [|? ?]]; simpl in Hlen; try lia.
    apply classify_one_byte. }
  assert (Hblank : length data ≠ 1%nat →
    (last (readlines data) = Some [NEWLINE] ↔ ends_blank data)).
  { intros Hlen. rewrite readlines_last_blank. split; [|by right].
    by intros [->|?]. }
  split.
  { intros Hlen Hlast%Hblank; [|done].
    rewrite classify_blank by done.
    destruct (bytes_decode_utf8 data); eexists; (split; [done|]);
      [by left|by right]. }
  intros m Hr Hname.
  destruct (decide (data = [])) as [->|Hne]; [done|].
  destruct (decide (length data = 1%nat)) as [Hlen|Hlen].
  { destruct data as [|b [|? ?]]; simpl in Hlen; try lia.
    rewrite classify_one_byte in Hr. by injection Hr as <-. }
  destruct (decide (ends_blank data)) as [Hb|Hb].
  { rewrite classify_blank in Hr by done.
    destruct (bytes_decode_utf8 data); by injection Hr as <-. }
  split; [done|]. split; [by rewrite Hblank|].
  rewrite classify_scan in Hr by done.
  destruct IS_WINDOWS; [done|].
  destruct (contains_crlf data) eqn:Hc; [|done].
  by apply readlines_contains_crlf.
Qed.

Lemma check_file_priority_witness :
  ∃ m, (check_file false "p.txt"
          (world_with "p.txt"
             [CARRIAGE_RETURN; NEWLINE; NEWLINE; NEWLINE])).1 = Ok (Some m)
       ∧ (name m = "Trailing newline" ∨ name m = "Decoding failure").
Proof.
  destruct (check_file_priority false "p.txt"
              (world_with "p.txt"
                 [CARRIAGE_RETURN; NEWLINE; NEWLINE; NEWLINE])
              [CARRIAGE_RETURN; NEWLINE; NEWLINE; NEWLINE]
              (world_with_lookup _ _))
    as (r & Hr & _ & _ & Hblank & _).
  destruct Hblank as (m & -> & Hname); [simpl; lia|reflexivity|].
  by exists m.
Defined.

(** ** The native-CRLF exemption *)

(** C8: with the native-CRLF flag set, a file on which neither the
    bare-newline check nor the trailing-newline check fires gets no finding:
    the DOS-newline scan is not run.  This holds whatever the file's line
    endings are, so in particular when all of them are carriage-return,
    line-feed. *)
Theorem check_file_native_crlf filename w data :
  files w !! filename = Some data →
  length data ≠ 1%nat →
  last (readlines data) ≠ Some [NEWLINE] →
  (check_file true filename w).1 = Ok None.
Proof.
  intros Hf Hlen Hlast. rewrite (check_file_result _ _ _ data Hf). f_equal.
  destruct (decide (data = [])) as [->|Hne]; [done|].
  rewrite classify_scan; [done..|].
  intros Hb. apply Hlast, readlines_last_blank. by right.
Qed.

Lemma check_file_native_crlf_witness :
  (check_file true "w.txt"
     (world_with "w.txt"
        ["a"%byte; CARRIAGE_RETURN; NEWLINE;
         "b"%byte; CARRIAGE_RETURN; NEWLINE])).1 = Ok None.
Proof.
  apply (check_file_native_crlf "w.txt" _
           ["a"%byte; CARRIAGE_RETURN; NEWLINE;
            "b"%byte; CARRIAGE_RETURN; NEWLINE]).
  - apply world_with_lookup.
  - simpl. lia.
  - simpl. congruence.
Defined.

(** ** Shape of the findings *)

(** C9: in every finding [check_file] returns, the original and the
    replacement are both present or both absent. *)
Theorem check_file_original_replacement IS_WINDOWS filename w m :
  (check_file IS_WINDOWS filename w).1 = Ok (Some m) →
  (is_Some (original m) ∧ is_Some (replacement m))
  ∨ (original m = None ∧ replacement m = None).
Proof.
  unfold check_file. simpl.
  destruct (files w !! filename) as [data|]; [|done]. simpl.
  rewrite check_lines_classify. intros [= Hm]. unfold classify in Hm.
  repeat match type of Hm with
  | (if ?c then _ else _) = _ => destruct c
  | Some (match ?d with Ok _ => _ | Raise _ => _ end) = _ => destruct d
  | None = Some _ => discriminate Hm
  | Some _ = Some _ => injection Hm as <-
  end; simpl; eauto.
Qed.

Lemma check_file_original_replacement_witness :
  (is_Some (original (dos_newline_message "d.txt" [13; 10; 97] [10; 97]))
   ∧ is_Some (replacement (dos_newline_message "d.txt" [13; 10; 97] [10; 97])))
  ∨ (original (dos_newline_message "d.txt" [13; 10; 97] [10; 97]) = None
     ∧ replacement (dos_newline_message "d.txt" [13; 10; 97] [10; 97])
       = None).
Proof.
  apply (check_file_original_replacement false "d.txt"
           (world_with "d.txt" [CARRIAGE_RETURN; NEWLINE; "a"%byte])).
  rewrite (check_file_result _ _ _ _ (world_with_lookup _ _)).
  reflexivity.
Defined.

(** ** Determinism *)




(** ** Decode failures *)

(** C7, counterexample: the claim has a file that is not valid UTF-8 and
    has neither a trailing-newline nor a DOS-newline defect produce no
    finding; the one-byte file [0xFF] is such a file and is reported (by the
    bare-newline check, which never decodes). *)
Lemma invalid_one_byte_is_reported :
  bytes_decode_utf8 ["255"%byte]
  = Raise (UnicodeDecodeError "utf-8" ["255"%byte] 0 1 "invalid start byte")
  ∧ ¬ ends_blank ["255"%byte]
  ∧ ¬ has_crlf ["255"%byte]
  ∧ (check_file false "b.bin" (world_with "b.bin" ["255"%byte])).1
    = Ok (Some (bare_newline_message "b.bin")).
Proof.
  split; [reflexivity|].
  split; [intros H%ends_blank_length; simpl in H; lia|].
  split; [by intros ?%contains_crlf_spec|].
  by rewrite (check_file_result _ _ _ ["255"%byte]).
Qed.

(** C7, as amended: [check_file] never raises on a file it can read.  If
    decoding the content fails where a fix would be reported (the last line
    is a lone line-feed, or the DOS-newline scan found a line to change),
    the result is the finding named "Decoding failure", with original and
    replacement absent and a description made of the error's class name and
    message.  A file that is not valid UTF-8, is longer than one byte and
    triggers neither fix path produces no finding and no error. *)
Theorem check_file_decode_failure IS_WINDOWS filename w data :
  files w !! filename = Some data →
  (∃ r, (check_file IS_WINDOWS filename w).1 = Ok r)
  ∧ ∀ err, bytes_decode_utf8 data = Raise err →
      (ends_blank data
       ∨ (length data ≠ 1%nat ∧ IS_WINDOWS = false ∧ has_crlf data) →
       ∃ m, (check_file IS_WINDOWS filename w).1 = Ok (Some m)
            ∧ name m = "Decoding failure"
            ∧ original m = None ∧ replacement m = None
            ∧ class_name err = "UnicodeDecodeError"
            ∧ description m
              = "utf-8 decoding failed due to " +:+ class_name err +:+ ":"
                  +:+ nl +:+ exc_str err)
      ∧ (length data ≠ 1%nat → ¬ ends_blank data →
         IS_WINDOWS = true ∨ ¬ has_crlf data →
         (check_file IS_WINDOWS filename w).1 = Ok None).
Proof.
  intros Hf. rewrite (check_file_result _ _ _ data Hf).
  split; [by eexists|]. intros err Herr.
  assert (Hne : data ≠ []) by (by intros ->).
  pose proof (bytes_decode_utf8_error data err Herr) as Hcls.
  split.
  - intros Hfix. exists (decode_failure_message filename err).
    split; [|done]. f_equal.
    destruct (decide (ends_blank data)) as [Hb|Hb].
    + by rewrite classify_blank, Herr.
    + destruct Hfix as [?|(Hlen & -> & Hc%contains_crlf_spec)]; [done|].
      by rewrite classify_scan, Hc, Herr.
  - intros Hlen Hb Hdos. f_equal. rewrite classify_scan by done.
    destruct Hdos as [->|Hc]; [done|]. destruct IS_WINDOWS; [done|].
    destruct (contains_crlf data) eqn:E; [|done].
    by apply contains_crlf_spec in E.
Qed.

Lemma check_file_decode_failure_witness :
  (∃ m, (check_file false "u.bin"
           (world_with "u.bin" ["255"%byte; NEWLINE; NEWLINE])).1
        = Ok (Some m)
        ∧ name m = "Decoding failure"
        ∧ original m = None ∧ replacement m = None
        ∧ "UnicodeDecodeError" = "UnicodeDecodeError"
        ∧ description m
          = "utf-8 decoding failed due to UnicodeDecodeError:" +:+ nl
              +:+ "'utf-8' codec can't decode byte 0xff in position 0: invalid start byte")
  ∧ (check_file false "v.bin"
       (world_with "v.bin" ["255"%byte; "a"%byte; NEWLINE])).1 = Ok None.
Proof.
  split.
  - exact (proj1
             (proj2 (check_file_decode_failure false "u.bin"
                       (world_with "u.bin" ["255"%byte; NEWLINE; NEWLINE])
                       ["255"%byte; NEWLINE; NEWLINE]
                       (world_with_lookup _ _))
                (UnicodeDecodeError "utf-8" ["255"%byte; NEWLINE; NEWLINE]
                   0 1 "invalid start byte") eq_refl)
             (or_introl (ex_intro _ ["255"%byte] eq_refl))).
  - apply (proj2
             (proj2 (check_file_decode_failure false "v.bin"
                       (world_with "v.bin" ["255"%byte; "a"%byte; NEWLINE])
                       ["255"%byte; "a"%byte; NEWLINE]
                       (world_with_lookup _ _))
                (UnicodeDecodeError "utf-8" ["255"%byte; "a"%byte; NEWLINE]
                   0 1 "invalid start byte") eq_refl)).
    + simpl. lia.
    + refine (proj1 (bool_decide_eq_false _) _). reflexivity.
    + right. by intros ?%contains_crlf_spec.
Defined.


(** ** The DOS-newline fix *)

(** C3: on a platform without native CRLF, for every valid-UTF-8 file with
    at least one physical line ending in carriage-return, line-feed, that is
    neither empty nor one byte long and whose last line is not a lone
    line-feed, [check_file] returns the finding named "DOS newline"; its
    original is the decoded content; its replacement is that content with
    the trailing carriage-return, line-feed of every line replaced by a
    line-feed and every other byte unchanged ([fix_line] on each line), which
    is the content with each carriage-return that precedes a line-feed
    removed and any other carriage-return left alone ([crlf_to_lf]). *)
Theorem check_file_dos_newline filename w data orig :
  files w !! filename = Some data →
  bytes_decode_utf8 data = Ok orig →
  Exists ends_crlf (readlines data) →
  data ≠ [] → length data ≠ 1%nat →
  last (readlines data) ≠ Some [NEWLINE] →
  ∃ m repl,
    (check_file false filename w).1 = Ok (Some m)
    ∧ name m = "DOS newline"
    ∧ original m = Some orig
    ∧ replacement m = Some repl
    ∧ repl = crlf_to_lf 13 10 orig
    ∧ utf8_encode repl = concat (fix_line <$> readlines data)
    ∧ utf8_encode repl = crlf_to_lf CARRIAGE_RETURN NEWLINE data.
Proof.
  intros Hf Hdec Hcrlf%readlines_contains_crlf Hne Hlen Hlast.
  assert (Hb : ¬ ends_blank data).
  { intros Hb. apply Hlast, readlines_last_blank. by right. }
  exists (dos_newline_message filename orig (crlf_to_lf 13 10 orig)),
    (crlf_to_lf 13 10 orig).
  rewrite (check_file_result _ _ _ data Hf), classify_scan, Hcrlf, Hdec by done.
  rewrite (decode_crlf_to_lf data orig Hdec).
  apply bytes_decode_utf8_inv in Hdec as [<- Hs].
  rewrite readlines_fix_line, utf8_encode_crlf_to_lf by done.
  done.
Qed.

Lemma check_file_dos_newline_witness :
  ∃ m repl,
    (check_file false "d.txt"
       (world_with "d.txt"
          ["a"%byte; CARRIAGE_RETURN; NEWLINE;
           "b"%byte; CARRIAGE_RETURN; NEWLINE])).1 = Ok (Some m)
    ∧ name m = "DOS newline"
    ∧ original m = Some [97; 13; 10; 98; 13; 10]
    ∧ replacement m = Some repl
    ∧ repl = [97; 10; 98; 10]
    ∧ utf8_encode repl
      = concat [["a"%byte; NEWLINE]; ["b"%byte; NEWLINE]]
    ∧ utf8_encode repl = ["a"%byte; NEWLINE; "b"%byte; NEWLINE].
Proof.
  apply (check_file_dos_newline "d.txt"
           (world_with "d.txt"
              ["a"%byte; CARRIAGE_RETURN; NEWLINE;
               "b"%byte; CARRIAGE_RETURN; NEWLINE])
           ["a"%byte; CARRIAGE_RETURN; NEWLINE;
            "b"%byte; CARRIAGE_RETURN; NEWLINE]
           [97; 13; 10; 98; 13; 10]).
  - apply world_with_lookup.
  - reflexivity.
  - left. by exists ["a"%byte].
  - congruence.
  - simpl. lia.
  - simpl. congruence.
Defined.

(** C4, counterexamples: the claim has the rewritten file raise no finding.
    The file ["\r\n"] is rewritten to ["\n"], which the bare-newline check
    reports; ["a\r\r\n"] is rewritten to ["a\r\n"], which the scan reports
    again; ["a\n\r\n"] is rewritten to ["a\n\n"], which the trailing-newline
    check reports. *)
Lemma dos_newline_fix_is_reported_again :
  ((check_file false "c.txt"
      (world_with "c.txt" [CARRIAGE_RETURN; NEWLINE])).1
   = Ok (Some (dos_newline_message "c.txt" [13; 10] [10]))
   ∧ (check_file false "c.txt" (world_with "c.txt" (utf8_encode [10]))).1
     = Ok (Some (bare_newline_message "c.txt")))
  ∧ ((check_file false "c.txt"
        (world_with "c.txt"
           ["a"%byte; CARRIAGE_RETURN; CARRIAGE_RETURN; NEWLINE])).1
     = Ok (Some (dos_newline_message "c.txt" [97; 13; 13; 10] [97; 13; 10]))
     ∧ (check_file false "c.txt"
          (world_with "c.txt" (utf8_encode [97; 13; 10]))).1
       = Ok (Some (dos_newline_message "c.txt" [97; 13; 10] [97; 10])))
  ∧ ((check_file false "c.txt"
        (world_with "c.txt"
           ["a"%byte; NEWLINE; CARRIAGE_RETURN; NEWLINE])).1
     = Ok (Some (dos_newline_message "c.txt" [97; 10; 13; 10] [97; 10; 10]))
     ∧ (check_file false "c.txt"
          (world_with "c.txt" (utf8_encode [97; 10; 10]))).1
       = Ok (Some (trailing_newline_message "c.txt" [97; 10; 10]))).
Proof.
  repeat split;
    by rewrite (check_file_result _ _ _ _ (world_with_lookup _ _)).
Qed.

(** C4, as amended: on a platform without native CRLF, for every file
    that produces the "DOS newline" finding (such a file is valid UTF-8),
    running [check_file] on a file holding the UTF-8 encoding of the
    finding's replacement yields no finding, provided the last line of the
    original file is not a lone carriage-return, line-feed (the content is
    not ["\r\n"] and does not end in ["\n\r\n"]) and no line ends in two
    carriage-returns and a line-feed. *)
Theorem dos_newline_fix_rerun filename w data m :
  files w !! filename = Some data →
  (check_file false filename w).1 = Ok (Some m) →
  name m = "DOS newline" →
  data ≠ [CARRIAGE_RETURN; NEWLINE] →
  ¬ [NEWLINE; CARRIAGE_RETURN; NEWLINE] `suffix_of` data →
  (¬ ∃ p q, data = p ++ CARRIAGE_RETURN :: CARRIAGE_RETURN :: NEWLINE :: q) →
  ∃ repl,
    replacement m = Some repl
    ∧ ∀ w', files w' !! filename = Some (utf8_encode repl) →
            (check_file false filename w').1 = Ok None.
Proof.
  intros Hf Hres Hname Hlone Hlast Hdouble.
  rewrite (check_file_result _ _ _ data Hf) in Hres. injection Hres as Hm.
  destruct (decide (data = [])) as [->|Hne]; [done|].
  destruct (decide (length data = 1%nat)) as [Hlen|Hlen].
  { destruct data as [|b [|? ?]]; simpl in Hlen; try lia.
    rewrite classify_one_byte in Hm. injection Hm as <-. done. }
  destruct (decide (ends_blank data)) as [Hb|Hb].
  { rewrite classify_blank in Hm by done.
    destruct (bytes_decode_utf8 data); injection Hm as <-; done. }
  rewrite classify_scan in Hm by done.
  destruct (contains_crlf data); [|done].
  destruct (bytes_decode_utf8 data) as [orig|err] eqn:Hdec;
    [|injection Hm as <-; done].
  rewrite (decode_crlf_to_lf data orig Hdec) in Hm. injection Hm as <-.
  exists (crlf_to_lf 13 10 orig). split; [done|].
  intros w' Hf'. rewrite (check_file_result _ _ _ _ Hf'). f_equal.
  apply bytes_decode_utf8_inv in Hdec as [<- Hs].
  rewrite <- utf8_encode_crlf_to_lf by done.
  by apply classify_after_crlf_to_lf.
Qed.

Lemma dos_newline_fix_rerun_witness :
  (check_file false "d.txt"
     (world_with "d.txt" (utf8_encode [97; 10; 98]))).1 = Ok None.
Proof.
  destruct (dos_newline_fix_rerun "d.txt"
              (world_with "d.txt"
                 ["a"%byte; CARRIAGE_RETURN; NEWLINE; "b"%byte])
              ["a"%byte; CARRIAGE_RETURN; NEWLINE; "b"%byte]
              (dos_newline_message "d.txt" [97; 13; 10; 98] [97; 10; 98]))
    as (repl & Hrepl & Hrun).
  - apply world_with_lookup.
  - rewrite (check_file_result _ _ _ _ (world_with_lookup _ _)). reflexivity.
  - reflexivity.
  - discriminate.
  - refine (proj1 (bool_decide_eq_false _) _). reflexivity.
  - intros (p & q & Hd). cbv [CARRIAGE_RETURN NEWLINE] in Hd.
    do 4 (destruct p as [|? p]; [discriminate Hd|]).
    destruct p; discriminate Hd.
  - injection Hrepl as <-. apply Hrun, world_with_lookup.
Defined.


(** ** Running the classifier on the trailing-newline fix *)

(** C2, counterexamples: the claim has the rewritten file raise no finding.
    The file ["\n\n"] is rewritten to ["\n"], which the bare-newline check
    reports; ["a\r\n\n\n"] is rewritten to ["a\r\n"], which the DOS-newline
    scan reports. *)
Lemma trailing_newline_fix_is_reported_again :
  ((check_file false "t.txt" (world_with "t.txt" [NEWLINE; NEWLINE])).1
   = Ok (Some (trailing_newline_message "t.txt" [10; 10]))
   ∧ replacement (trailing_newline_message "t.txt" [10; 10]) = Some [10]
   ∧ (check_file false "t.txt" (world_with "t.txt" (utf8_encode [10]))).1
     = Ok (Some (bare_newline_message "t.txt")))
  ∧ ((check_file false "t.txt"
        (world_with "t.txt"
           ["a"%byte; CARRIAGE_RETURN; NEWLINE; NEWLINE; NEWLINE])).1
     = Ok (Some (trailing_newline_message "t.txt" [97; 13; 10; 10; 10]))
     ∧ replacement (trailing_newline_message "t.txt" [97; 13; 10; 10; 10])
       = Some [97; 13; 10]
     ∧ (check_file false "t.txt"
          (world_with "t.txt" (utf8_encode [97; 13; 10]))).1
       = Ok (Some (dos_newline_message "t.txt" [97; 13; 10] [97; 10]))).
Proof.
  repeat split;
    by rewrite (check_file_result _ _ _ _ (world_with_lookup _ _)).
Qed.

(** C2, as amended: for every valid-UTF-8 file whose content ends in two or
    more line-feed bytes, [check_file] returns the finding named
    "Trailing newline"; and running [check_file] on a file holding the UTF-8
    encoding of that finding's replacement yields no finding, provided the
    original content has a byte other than the line-feed and, unless the
    native-CRLF flag is set, has no carriage-return, line-feed pair. *)
Theorem trailing_newline_fix_rerun IS_WINDOWS filename w data orig :
  files w !! filename = Some data →
  bytes_decode_utf8 data = Ok orig →
  ends_blank data →
  ∃ m repl,
    (check_file IS_WINDOWS filename w).1 = Ok (Some m)
    ∧ name m = "Trailing newline"
    ∧ replacement m = Some repl
    ∧ ((∃ b, b ∈ data ∧ b ≠ NEWLINE) →
       IS_WINDOWS = true ∨ ¬ has_crlf data →
       ∀ w', files w' !! filename = Some (utf8_encode repl) →
             (check_file IS_WINDOWS filename w').1 = Ok None).
Proof.
  intros Hf Hdec Hblank.
  exists (trailing_newline_message filename orig),
    (strip_trailing 10 orig ++ [10]).
  rewrite (check_file_result _ _ _ data Hf), classify_blank, Hdec by done.
  split; [done|]. split; [done|].
  split; [simpl; by rewrite rstrip_newline|].
  intros (b & Hin & Hb) Hdos w' Hf'.
  rewrite (check_file_result _ _ _ _ Hf'). f_equal.
  apply bytes_decode_utf8_inv in Hdec as [<- Hs].
  rewrite utf8_encode_app, <- utf8_encode_strip_trailing by done.
  change (utf8_encode [10]) with [NEWLINE].
  apply classify_after_strip; [done| |].
  - intros Hnil%strip_trailing_nil_inv. rewrite Hnil in Hin.
    by apply elem_of_replicate in Hin as [-> _].
  - destruct Hdos as [->|Hc]; [by left|right].
    destruct (contains_crlf _) eqn:E; [|done].
    by apply contains_crlf_spec in E.
Qed.

Lemma trailing_newline_fix_rerun_witness :
  (check_file false "t.txt"
     (world_with "t.txt" ["a"%byte; NEWLINE; NEWLINE; NEWLINE])).1
  = Ok (Some (trailing_newline_message "t.txt" [97; 10; 10; 10]))
  ∧ (check_file false "t.txt"
       (world_with "t.txt" (utf8_encode [97; 10]))).1 = Ok None.
Proof.
  destruct (trailing_newline_fix_rerun false "t.txt"
              (world_with "t.txt" ["a"%byte; NEWLINE; NEWLINE; NEWLINE])
              ["a"%byte; NEWLINE; NEWLINE; NEWLINE] [97; 10; 10; 10])
    as (m & repl & Hres & Hname & Hrepl & Hrun).
  - apply world_with_lookup.
  - reflexivity.
  - by exists ["a"%byte; NEWLINE].
  - rewrite (check_file_result _ _ _ _ (world_with_lookup _ _)) in Hres.
    injection Hres as <-. injection Hrepl as <-.
    split; [by rewrite (check_file_result _ _ _ _ (world_with_lookup _ _))|].
    apply Hrun.
    + exists "a"%byte. split; [by left|discriminate].
    + right. by intros ?%contains_crlf_spec.
    + apply world_with_lookup.
Defined.


(** ** Files without defect *)

(** A file of two or more bytes whose last line is not blank and that has no
    carriage-return, line-feed pair gets no finding, valid UTF-8 or not. *)
Lemma check_file_clean IS_WINDOWS filename w data :
  files w !! filename = Some data →
  length data ≠ 1%nat → ¬ ends_blank data → ¬ has_crlf data →
  (check_file IS_WINDOWS filename w).1 = Ok None.
Proof.
  intros Hf Hlen Hb Hc. rewrite (check_file_result _ _ _ data Hf). f_equal.
  destruct (decide (data = [])) as [->|Hne]; [done|].
  rewrite classify_scan by done. destruct IS_WINDOWS; [done|].
  destruct (contains_crlf data) eqn:E; [|done].
  by apply contains_crlf_spec in E.
Qed.

(** Scenario A of the specification: ["hello\n"] gets no finding. *)
Example check_file_hello_line :
  (check_file false "a.txt"
     (world_with "a.txt" (String.list_byte_of_string "hello" ++ [NEWLINE]))).1
  = Ok None.
Proof. by rewrite (check_file_result _ _ _ _ (world_with_lookup _ _)). Qed.

(** A missing file makes [check_file] raise: the failure of [open] is not
    caught. *)
Lemma check_file_missing IS_WINDOWS filename w :
  files w !! filename = None →
  (check_file IS_WINDOWS filename w).1 = Raise (FileNotFoundError filename).
Proof. intros Hf. unfold check_file. simpl. by rewrite Hf. Qed.


(** * Further properties of [check_file] *)

(** The five ways [check_file] comes to report a finding. *)
Lemma classify_Some_inv IS_WINDOWS filename data m :
  classify IS_WINDOWS filename data = Some m →
  (length data = 1%nat ∧ m = bare_newline_message filename)
  ∨ (ends_blank data
     ∧ ∃ err, bytes_decode_utf8 data = Raise err
              ∧ m = decode_failure_message filename err)
  ∨ (ends_blank data
     ∧ ∃ orig, bytes_decode_utf8 data = Ok orig
               ∧ m = trailing_newline_message filename orig)
  ∨ (IS_WINDOWS = false ∧ length data ≠ 1%nat ∧ ¬ ends_blank data
     ∧ contains_crlf data = true
     ∧ ∃ err, bytes_decode_utf8 data = Raise err
              ∧ m = decode_failure_message filename err)
  ∨ (IS_WINDOWS = false ∧ length data ≠ 1%nat ∧ ¬ ends_blank data
     ∧ contains_crlf data = true
     ∧ ∃ orig, bytes_decode_utf8 data = Ok orig
               ∧ m = dos_newline_message filename orig
                       (crlf_to_lf 13 10 orig)).
Proof.
  intros Hm.
  destruct (decide (data = [])) as [->|Hne]; [done|].
  destruct (decide (length data = 1%nat)) as [Hlen|Hlen].
  { destruct data as [|b [|? ?]]; simpl in Hlen; try lia.
    rewrite classify_one_byte in Hm. injection Hm as <-. by left. }
  destruct (decide (ends_blank data)) as [Hb|Hb].
  { rewrite classify_blank in Hm by done. right.
    destruct (bytes_decode_utf8 data) as [orig|err] eqn:Hdec;
      injection Hm as <-; [right; left|left]; eauto. }
  rewrite classify_scan in Hm by done.
  destruct IS_WINDOWS; [done|].
  destruct (contains_crlf data) eqn:Hc; [|done].
  do 3 right.
  destruct (bytes_decode_utf8 data) as [orig|err] eqn:Hdec.
  - rewrite (decode_crlf_to_lf data orig Hdec) in Hm. injection Hm as <-.
    right. eauto 10.
  - injection Hm as <-. left. eauto 10.
Qed.

Lemma check_file_Some_inv IS_WINDOWS filename w m :
  (check_file IS_WINDOWS filename w).1 = Ok (Some m) →
  ∃ data, files w !! filename = Some data
          ∧ classify IS_WINDOWS filename data = Some m.
Proof.
  unfold check_file. simpl.
  destruct (files w !! filename) as [data|]; [|done]. simpl.
  rewrite check_lines_classify. intros [= Hm]. by exists data.
Qed.

(** X1: every finding carries the name of the file it was asked about, no
    line and no character position, the linter code and the error
    severity, and one of the four names of the code.  (Lines 30-40, 46-56,
    58-68, 90-111.) *)
Theorem check_file_fixed_fields IS_WINDOWS filename w m :
  (check_file IS_WINDOWS filename w).1 = Ok (Some m) →
  path m = filename ∧ line m = None ∧ char m = None
  ∧ code m = "NEWLINE" ∧ severity m = ERROR
  ∧ (name m = "testestTrailing newline" ∨ name m = "Decoding failure"
     ∨ name m = "Trailing newline" ∨ name m = "DOS newline").
Proof.
  intros (data & _ & Hm)%check_file_Some_inv.
  apply classify_Some_inv in Hm
    as [[_ ->]|[(_ & err & _ & ->)|[(_ & orig & _ & ->)
       |[(_ & _ & _ & _ & err & _ & ->)|(_ & _ & _ & _ & orig & _ & ->)]]]];
    simpl; tauto.
Qed.

Lemma check_file_fixed_fields_witness :
  path (trailing_newline_message "f.txt" [97; 10; 10]) = "f.txt"
  ∧ line (trailing_newline_message "f.txt" [97; 10; 10]) = None
  ∧ char (trailing_newline_message "f.txt" [97; 10; 10]) = None
  ∧ code (trailing_newline_message "f.txt" [97; 10; 10]) = "NEWLINE"
  ∧ severity (trailing_newline_message "f.txt" [97; 10; 10]) = ERROR
  ∧ (name (trailing_newline_message "f.txt" [97; 10; 10])
     = "testestTrailing newline"
     ∨ name (trailing_newline_message "f.txt" [97; 10; 10])
       = "Decoding failure"
     ∨ name (trailing_newline_message "f.txt" [97; 10; 10])
       = "Trailing newline"
     ∨ name (trailing_newline_message "f.txt" [97; 10; 10]) = "DOS newline").
Proof.
  apply (check_file_fixed_fields true "f.txt"
           (world_with "f.txt" ["a"%byte; NEWLINE; NEWLINE])).
  by rewrite (check_file_result _ _ _ _ (world_with_lookup _ _)).
Defined.

(** X2: on a file it can read, [check_file] reports nothing exactly when
    the file is empty, or has two bytes or more, does not end in two
    line-feeds and, unless the native-CRLF flag is set, has no
    carriage-return immediately followed by a line-feed.  (Lines 24-113.) *)
Theorem check_file_no_finding_iff IS_WINDOWS filename w data :
  files w !! filename = Some data →
  (check_file IS_WINDOWS filename w).1 = Ok None
  ↔ data = []
    ∨ ((2 ≤ length data)%nat ∧ ¬ ends_blank data
       ∧ (IS_WINDOWS = true ∨ ¬ has_crlf data)).
Proof.
  intros Hf. rewrite (check_file_result _ _ _ data Hf). split.
  - intros [= Hnone].
    destruct (decide (data = [])) as [->|Hne]; [by left|right].
    destruct (decide (length data = 1%nat)) as [Hlen|Hlen].
    { destruct data as [|b [|? ?]]; simpl in Hlen; try lia.
      by rewrite classify_one_byte in Hnone. }
    destruct (decide (ends_blank data)) as [Hb|Hb].
    { by rewrite classify_blank in Hnone. }
    split; [destruct data as [|? [|? ?]]; simpl in *; try done; lia|].
    split; [done|].
    rewrite classify_scan in Hnone by done.
    destruct IS_WINDOWS; [by left|right].
    destruct (contains_crlf data) eqn:Hc; [done|].
    intros Hh%contains_crlf_spec. congruence.
  - intros [->|(Hlen & Hb & Hdos)]; [done|]. f_equal.
    rewrite classify_scan; [|by intros ->; simpl in Hlen; lia|lia|done].
    destruct Hdos as [->|Hc]; [done|]. destruct IS_WINDOWS; [done|].
    destruct (contains_crlf data) eqn:E; [|done].
    by apply contains_crlf_spec in E.
Qed.

Lemma check_file_no_finding_iff_witness :
  (check_file false "m.txt"
     (world_with "m.txt" ["a"%byte; CARRIAGE_RETURN; "b"%byte; NEWLINE])).1
  = Ok None
  ↔ ["a"%byte; CARRIAGE_RETURN; "b"%byte; NEWLINE] = []
    ∨ ((2 ≤ length ["a"%byte; CARRIAGE_RETURN; "b"%byte; NEWLINE])%nat
       ∧ ¬ ends_blank ["a"%byte; CARRIAGE_RETURN; "b"%byte; NEWLINE]
       ∧ (false = true
          ∨ ¬ has_crlf ["a"%byte; CARRIAGE_RETURN; "b"%byte; NEWLINE])).
Proof.
  apply (check_file_no_finding_iff false "m.txt"
           (world_with "m.txt"
              ["a"%byte; CARRIAGE_RETURN; "b"%byte; NEWLINE])).
  apply world_with_lookup.
Defined.

(** X3: the native-CRLF flag only ever removes findings.  On the same
    file the two settings of the flag give the same result, except that with
    the flag set nothing is reported where without it the DOS-newline scan
    reports a DOS newline or a decode failure.  (Lines 70-73.) *)
Theorem check_file_platform_difference filename w data :
  files w !! filename = Some data →
  ∃ native other,
    (check_file true filename w).1 = Ok native
    ∧ (check_file false filename w).1 = Ok other
    ∧ (native = other
       ∨ (native = None ∧ has_crlf data
          ∧ ∃ m, other = Some m
                 ∧ (name m = "DOS newline" ∨ name m = "Decoding failure"))).
Proof.
  intros Hf. exists (classify true filename data), (classify false filename data).
  rewrite !(check_file_result _ _ _ data Hf). split; [done|]. split; [done|].
  destruct (decide (data = [])) as [->|Hne]; [by left|].
  destruct (decide (length data = 1%nat)) as [Hlen|Hlen].
  { destruct data as [|b [|? ?]]; simpl in Hlen; try lia. by left. }
  destruct (decide (ends_blank data)) as [Hb|Hb].
  { left. by rewrite !classify_blank. }
  rewrite !classify_scan by done.
  destruct (contains_crlf data) eqn:Hc; [right|by left].
  split; [done|]. split; [by apply contains_crlf_spec|].
  destruct (bytes_decode_utf8 data) as [orig|err] eqn:Hdec.
  - rewrite (decode_crlf_to_lf data orig Hdec). eexists. split; [done|].
    by left.
  - eexists. split; [done|]. by right.
Qed.

Lemma check_file_platform_difference_witness :
  ∃ native other,
    (check_file true "w.txt"
       (world_with "w.txt" ["a"%byte; CARRIAGE_RETURN; NEWLINE])).1
    = Ok native
    ∧ (check_file false "w.txt"
         (world_with "w.txt" ["a"%byte; CARRIAGE_RETURN; NEWLINE])).1
      = Ok other
    ∧ (native = other
       ∨ (native = None ∧ has_crlf ["a"%byte; CARRIAGE_RETURN; NEWLINE]
          ∧ ∃ m, other = Some m
                 ∧ (name m = "DOS newline" ∨ name m = "Decoding failure"))).
Proof.
  apply (check_file_platform_difference "w.txt"
           (world_with "w.txt" ["a"%byte; CARRIAGE_RETURN; NEWLINE])
           ["a"%byte; CARRIAGE_RETURN; NEWLINE]).
  apply world_with_lookup.
Defined.


(** ** What the fixes change *)

Lemma utf8_encode_ends_blank s :
  Forall is_scalar s → ends_blank (utf8_encode s) → [10; 10] `suffix_of` s.
Proof.
  intros Hs Hb.
  pose proof (ends_blank_last _ Hb) as Hl1.
  apply utf8_encode_last_newline in Hl1 as [s1 ->]%last_Some; [|done].
  apply Forall_app in Hs as [Hs1 _].
  rewrite utf8_encode_app in Hb. change (utf8_encode [10]) with [NEWLINE] in Hb.
  destruct Hb as [k Hk].
  change [NEWLINE; NEWLINE] with ([NEWLINE] ++ [NEWLINE]) in Hk.
  rewrite app_assoc in Hk. apply app_inj_tail in Hk as [Hk _].
  assert (Hl2 : last (utf8_encode s1) = Some NEWLINE)
    by (by rewrite Hk, last_snoc).
  apply utf8_encode_last_newline in Hl2 as [s2 ->]%last_Some; [|done].
  exists s2. by rewrite <- app_assoc.
Qed.

(** Stripping a sequence that ends in two [x] removes at least two. *)
Lemma strip_trailing_ends_double {A} `{EqDecision A} (x : A) (l : list A) :
  [x; x] `suffix_of` l →
  ∃ k, l = (strip_trailing x l ++ [x]) ++ replicate (S k) x.
Proof.
  intros [p Hp]. destruct (strip_trailing_decompose x l) as [k Hk].
  pose proof (strip_trailing_last x l) as Hlast.
  set (t := strip_trailing x l) in *. clearbody t.
  destruct k as [|[|k]].
  - simpl in Hk. rewrite app_nil_r in Hk. rewrite Hk in Hp.
    destruct Hlast. rewrite Hp.
    by rewrite (last_app_cons p), last_cons_cons.
  - simpl in Hk. rewrite Hk in Hp. destruct Hlast.
    change [x; x] with ([x] ++ [x]) in Hp. rewrite app_assoc in Hp.
    apply app_inj_tail in Hp as [-> _]. by rewrite last_snoc.
  - exists k. rewrite Hk at 1. by rewrite <- app_assoc.
Qed.

(** X4: the replacement of a trailing-newline finding is the original with
    one or more line-feeds taken off its end, and nothing else changed: it
    still ends in a line-feed, but no longer in two.  (Lines 58-68.) *)
Theorem trailing_newline_replacement_shape IS_WINDOWS filename w m orig repl :
  (check_file IS_WINDOWS filename w).1 = Ok (Some m) →
  name m = "Trailing newline" →
  original m = Some orig →
  replacement m = Some repl →
  (∃ k, orig = repl ++ replicate (S k) 10)
  ∧ last repl = Some 10
  ∧ ¬ [10; 10] `suffix_of` repl.
Proof.
  intros (data & _ & Hm)%check_file_Some_inv Hname Horig Hrepl.
  apply classify_Some_inv in Hm
    as [[_ ->]|[(_ & err & _ & ->)|[(Hb & o & Hdec & ->)
       |[(_ & _ & _ & _ & err & _ & ->)|(_ & _ & _ & _ & o & _ & ->)]]]];
    try discriminate Hname.
  simpl in Horig, Hrepl. injection Horig as ->.
  rewrite rstrip_newline in Hrepl. injection Hrepl as <-.
  apply bytes_decode_utf8_inv in Hdec as [<- Hs].
  apply utf8_encode_ends_blank in Hb; [|done].
  split; [by apply strip_trailing_ends_double|].
  split; [by rewrite last_snoc|].
  intros [p Hp]. apply (strip_trailing_last 10 orig).
  change [10; 10] with ([10] ++ [10]) in Hp. rewrite app_assoc in Hp.
  apply app_inj_tail in Hp as [-> _]. by rewrite last_snoc.
Qed.

Lemma trailing_newline_replacement_shape_witness :
  (∃ k, [97; 10; 10; 10] = [97; 10] ++ replicate (S k) 10)
  ∧ last [97; 10] = Some 10
  ∧ ¬ [10; 10] `suffix_of` [97; 10].
Proof.
  apply (trailing_newline_replacement_shape false "t.txt"
           (world_with "t.txt" ["a"%byte; NEWLINE; NEWLINE; NEWLINE])
           (trailing_newline_message "t.txt" [97; 10; 10; 10])).
  - by rewrite (check_file_result _ _ _ _ (world_with_lookup _ _)).
  - reflexivity.
  - reflexivity.
  - reflexivity.
Defined.

Section crlf_to_lf_shape.
Context {A : Type} `{EqDecision A} (cr lf : A).

Lemma crlf_to_lf_sublist l : crlf_to_lf cr lf l `sublist_of` l.
Proof.
  induction l as [|x rest IH]; [done|]. simpl.
  case_bool_decide; [by apply sublist_cons|by apply sublist_skip].
Qed.

Lemma crlf_to_lf_keeps_others l :
  filter (λ y, y ≠ cr) (crlf_to_lf cr lf l) = filter (λ y, y ≠ cr) l.
Proof.
  induction l as [|x rest IH]; [done|]. simpl.
  case_bool_decide as Hx.
  - destruct Hx as [-> _]. by rewrite filter_cons_False by (by intros ?).
  - rewrite !filter_cons. by rewrite IH.
Qed.

Lemma crlf_to_lf_length l :
  crlf_to_lf cr lf l = l ∨ (length (crlf_to_lf cr lf l) < length l)%nat.
Proof.
  induction l as [|x rest IH]; [by left|]. simpl.
  case_bool_decide.
  - right. pose proof (sublist_length _ _ (crlf_to_lf_sublist rest)). lia.
  - destruct IH as [->|IH]; [by left|right]. simpl. lia.
Qed.
End crlf_to_lf_shape.

Lemma crlf_to_lf_changes data :
  contains_crlf data = true →
  crlf_to_lf CARRIAGE_RETURN NEWLINE data ≠ data.
Proof.
  induction data as [|x rest IH]; [done|]. simpl.
  case_bool_decide as Hx.
  - intros _ Heq.
    pose proof (sublist_length _ _
                  (crlf_to_lf_sublist CARRIAGE_RETURN NEWLINE rest)) as Hl.
    rewrite Heq in Hl. simpl in Hl. lia.
  - simpl. intros Hc Heq. injection Heq as Heq. by apply IH.
Qed.

(** X5: the replacement of a DOS-newline finding is the original with one
    or more carriage-returns deleted and nothing else touched: every other
    character is kept, in its order.  (Lines 77-88 and 101-111.) *)
Theorem dos_newline_replacement_shape IS_WINDOWS filename w m orig repl :
  (check_file IS_WINDOWS filename w).1 = Ok (Some m) →
  name m = "DOS newline" →
  original m = Some orig →
  replacement m = Some repl →
  (length repl < length orig)%nat
  ∧ repl `sublist_of` orig
  ∧ filter (λ c, c ≠ 13) repl = filter (λ c, c ≠ 13) orig.
Proof.
  intros (data & _ & Hm)%check_file_Some_inv Hname Horig Hrepl.
  apply classify_Some_inv in Hm
    as [[_ ->]|[(_ & err & _ & ->)|[(_ & o & _ & ->)
       |[(_ & _ & _ & _ & err & _ & ->)|(_ & _ & _ & Hc & o & Hdec & ->)]]]];
    try discriminate Hname.
  simpl in Horig, Hrepl. injection Horig as ->. injection Hrepl as <-.
  split; [|split; [apply crlf_to_lf_sublist|apply crlf_to_lf_keeps_others]].
  destruct (crlf_to_lf_length 13 10 orig) as [Heq|Hlt]; [|done].
  exfalso. apply (crlf_to_lf_changes data Hc).
  apply bytes_decode_utf8_inv in Hdec as [<- Hs].
  by rewrite utf8_encode_crlf_to_lf, Heq.
Qed.

Lemma dos_newline_replacement_shape_witness :
  (length ([97; 13; 10; 13; 98]%N : text)
   < length ([97; 13; 13; 10; 13; 98]%N : text))%nat
  ∧ [97; 13; 10; 13; 98] `sublist_of` [97; 13; 13; 10; 13; 98]
  ∧ filter (λ c, c ≠ 13) [97; 13; 10; 13; 98]
    = filter (λ c, c ≠ 13) [97; 13; 13; 10; 13; 98].
Proof.
  apply (dos_newline_replacement_shape false "d.txt"
           (world_with "d.txt"
              ["a"%byte; CARRIAGE_RETURN; CARRIAGE_RETURN; NEWLINE;
               CARRIAGE_RETURN; "b"%byte])
           (dos_newline_message "d.txt" [97; 13; 13; 10; 13; 98]
              [97; 13; 10; 13; 98])).
  - by rewrite (check_file_result _ _ _ _ (world_with_lookup _ _)).
  - reflexivity.
  - reflexivity.
  - reflexivity.
Defined.

(** X6: a finding's original is the whole file, losslessly: encoding it as
    UTF-8 gives back the bytes of the file exactly; and the replacement is
    text that encodes and decodes back to itself, so that it can be written
    to the file.  (Lines 44, 65-66, 87-88, 108-109.) *)
Theorem check_file_original_lossless IS_WINDOWS filename w data m orig repl :
  files w !! filename = Some data →
  (check_file IS_WINDOWS filename w).1 = Ok (Some m) →
  original m = Some orig →
  replacement m = Some repl →
  utf8_encode orig = data
  ∧ bytes_decode_utf8 data = Ok orig
  ∧ bytes_decode_utf8 (utf8_encode repl) = Ok repl.
Proof.
  intros Hf (data' & Hf' & Hm)%check_file_Some_inv Horig Hrepl.
  rewrite Hf in Hf'. injection Hf' as <-.
  apply classify_Some_inv in Hm
    as [[_ ->]|[(_ & err & _ & ->)|[(_ & o & Hdec & ->)
       |[(_ & _ & _ & _ & err & _ & ->)|(_ & _ & _ & _ & o & Hdec & ->)]]]];
    try discriminate Horig;
    simpl in Horig, Hrepl; injection Horig as ->; injection Hrepl as <-;
    destruct (bytes_decode_utf8_inv _ _ Hdec) as [Henc Hs];
    (split; [done|]); (split; [done|]);
    apply bytes_decode_utf8_encode.
  - rewrite rstrip_newline. apply Forall_app. split; [|by repeat constructor; left; lia].
    destruct (strip_trailing_decompose 10 orig) as [k Hk].
    rewrite Hk in Hs. by apply Forall_app in Hs as [? _].
  - by apply crlf_to_lf_Forall.
Qed.

Lemma check_file_original_lossless_witness :
  utf8_encode [233; 13; 10] = ["195"%byte; "169"%byte; CARRIAGE_RETURN; NEWLINE]
  ∧ bytes_decode_utf8 ["195"%byte; "169"%byte; CARRIAGE_RETURN; NEWLINE]
    = Ok [233; 13; 10]
  ∧ bytes_decode_utf8 (utf8_encode [233; 10]) = Ok [233; 10].
Proof.
  apply (check_file_original_lossless false "e.txt"
           (world_with "e.txt"
              ["195"%byte; "169"%byte; CARRIAGE_RETURN; NEWLINE])
           ["195"%byte; "169"%byte; CARRIAGE_RETURN; NEWLINE]
           (dos_newline_message "e.txt" [233; 13; 10] [233; 10])).
  - apply world_with_lookup.
  - by rewrite (check_file_result _ _ _ _ (world_with_lookup _ _)).
  - reflexivity.
  - reflexivity.
Defined.


(** ** The scan loop, as a user of lines 75-82 sees it *)

(** X7: the loop never raises, keeps the number of lines, replaces every
    line ending in carriage-return, line-feed by the same line without the
    carriage-return, leaves every other line as it is, sets [has_changes]
    exactly when some line was replaced, and then holds in [original_lines]
    the list as it was before the first replacement, so that the assertion
    of line 86 holds.  Iterations beyond the length of the list do
    nothing. *)
Theorem scan_loop_rewrites_lines lines n :
  (length lines ≤ n)%nat →
  ∃ st,
    scan_loop n 0
      {| sc_lines := lines; has_changes := false; original_lines := None |}
    = Ok st
    ∧ length (sc_lines st) = length lines
    ∧ (∀ i (p : bytes),
         lines !! i = Some (p ++ [CARRIAGE_RETURN; NEWLINE]) →
              sc_lines st !! i = Some (p ++ [NEWLINE]))
    ∧ (∀ i ln, lines !! i = Some ln → ¬ ends_crlf ln →
               sc_lines st !! i = Some ln)
    ∧ (has_changes st = true ↔ Exists ends_crlf lines)
    ∧ (has_changes st = true → original_lines st = Some lines)
    ∧ (has_changes st = false →
       original_lines st = None ∧ sc_lines st = lines).
Proof.
  intros Hn. eexists. split; [by apply scan_loop_from_start|].
  cbn [sc_lines has_changes original_lines].
  split; [by rewrite length_fmap|].
  split.
  { intros i p Hi. rewrite list_lookup_fmap. unfold bytes in *.
    by rewrite Hi, <- fix_line_crlf. }
  split.
  { intros i ln Hi Hln. rewrite list_lookup_fmap, Hi. simpl.
    by rewrite fix_line_other. }
  split; [apply bool_decide_eq_true|].
  split; [by intros ->|].
  intros Hfalse. rewrite Hfalse. split; [done|].
  apply bool_decide_eq_false in Hfalse.
  induction lines as [|ln lines IH]; [done|].
  rewrite fmap_cons. rewrite Exists_cons in Hfalse.
  rewrite fix_line_other by tauto. f_equal. apply IH; [simpl in Hn; lia|tauto].
Qed.

Lemma scan_loop_rewrites_lines_witness :
  ∃ st,
    scan_loop 5 0
      {| sc_lines := [["a"%byte; CARRIAGE_RETURN; NEWLINE];
                      ["b"%byte; NEWLINE]; [CARRIAGE_RETURN; NEWLINE]];
         has_changes := false; original_lines := None |}
    = Ok st
    ∧ sc_lines st
      = [["a"%byte; NEWLINE]; ["b"%byte; NEWLINE]; [NEWLINE]]
    ∧ has_changes st = true
    ∧ original_lines st
      = Some [["a"%byte; CARRIAGE_RETURN; NEWLINE];
              ["b"%byte; NEWLINE]; [CARRIAGE_RETURN; NEWLINE]].
Proof.
  destruct (scan_loop_rewrites_lines
              [["a"%byte; CARRIAGE_RETURN; NEWLINE];
               ["b"%byte; NEWLINE]; [CARRIAGE_RETURN; NEWLINE]] 5)
    as (st & Hst & _); [simpl; lia|].
  exists st. split; [exact Hst|].
  injection Hst as <-. done.
Defined.

(** ** The driver *)

Lemma check_files_present IS_WINDOWS names : ∀ contents acc w,
  Forall2 (λ fn data, files w !! fn = Some data) names contents →
  check_files IS_WINDOWS names acc w
  = (Ok (acc ++ omap (λ p, classify IS_WINDOWS p.1 p.2) (zip names contents)),
     {| files := files w;
        debug_log := debug_log w ++ (checking <$> names) |}).
Proof.
  induction names as [|fn names IH]; intros contents acc w Hall.
  - apply Forall2_nil_inv_l in Hall as ->. simpl.
    rewrite !app_nil_r. by destruct w.
  - apply Forall2_cons_inv_l in Hall as (data & contents' & Hf & Hall & ->).
    simpl check_files. rewrite (check_file_classify _ _ _ data Hf).
    rewrite (IH contents') by done. simpl. f_equal.
    + f_equal. destruct (classify IS_WINDOWS fn data); simpl; [|done].
      by rewrite <- app_assoc.
    + f_equal. by rewrite <- app_assoc.
Qed.

Lemma check_files_missing IS_WINDOWS before : ∀ fn after acc w,
  Forall (λ f, is_Some (files w !! f)) before →
  files w !! fn = None →
  check_files IS_WINDOWS (before ++ fn :: after) acc w
  = (Raise (FileNotFoundError fn),
     {| files := files w;
        debug_log := debug_log w ++ (checking <$> before ++ [fn]) |}).
Proof.
  induction before as [|f before IH]; intros fn after acc w Hall Hf.
  - simpl. unfold check_file. simpl. by rewrite Hf.
  - apply Forall_cons in Hall as [[data Hd] Hall].
    simpl check_files. rewrite (check_file_classify _ _ _ data Hd).
    rewrite IH by done. simpl. f_equal. f_equal. by rewrite <- app_assoc.
Qed.

Lemma display_all_spec lint_messages out :
  display_all lint_messages out = out ++ lint_messages.
Proof.
  unfold display_all. revert out.
  induction lint_messages as [|m ms IH]; intros out; simpl.
  - by rewrite app_nil_r.
  - by rewrite IH, <- app_assoc.
Qed.


Lemma files_present_contents (w : World) names :
  Forall (λ f, is_Some (files w !! f)) names →
  ∃ contents, Forall2 (λ fn data, files w !! fn = Some data) names contents.
Proof.
  induction 1 as [|f names [data Hd] _ [contents IH]].
  - by exists [].
  - exists (data :: contents). by constructor.
Qed.

Lemma findings_of_contents IS_WINDOWS w names contents :
  Forall2 (λ fn data, files w !! fn = Some data) names contents →
  omap (λ p, classify IS_WINDOWS p.1 p.2) (zip names contents)
  = omap (finding_of IS_WINDOWS w) names.
Proof.
  intros Hall. apply list_omap_ext.
  induction Hall as [|fn data names contents Hf _ IH]; [by constructor|].
  constructor; [|exact IH]. simpl. unfold finding_of.
  rewrite (check_file_result _ _ _ data Hf).
  by destruct (classify IS_WINDOWS fn data).
Qed.

Lemma omap_length_le {A B} (f : A → option B) (l : list A) :
  (length (omap f l) ≤ length l)%nat.
Proof.
  induction l as [|x l IH]; [done|].
  change (omap f (x :: l))
    with (match f x with Some y => y :: omap f l | None => omap f l end).
  destruct (f x); simpl; lia.
Qed.

(** X8: when every file named on the command line can be read, the driver
    ends normally whether or not there are findings, displays exactly the
    findings [check_file] gives for the files, in the order of the command
    line and at most one per file, and leaves the files as they were.
    (Lines 144-151.) *)
Theorem main_displays_findings IS_WINDOWS args w :
  Forall (λ f, is_Some (files w !! f)) (filenames args) →
  status (main IS_WINDOWS args w) = Ok ()
  ∧ displayed (main IS_WINDOWS args w)
    = omap (finding_of IS_WINDOWS w) (filenames args)
  ∧ (length (displayed (main IS_WINDOWS args w))
     ≤ length (filenames args))%nat
  ∧ files (world_after (main IS_WINDOWS args w)) = files w.
Proof.
  intros [contents Hall]%files_present_contents. unfold main.
  rewrite (check_files_present _ _ contents [] w Hall). simpl.
  rewrite display_all_spec, (findings_of_contents _ _ _ _ Hall). simpl.
  repeat split. apply omap_length_le.
Qed.

Lemma main_displays_findings_witness :
  status (main false {| verbose := false; filenames := ["a"; "b"; "a"] |}
            (world_of [("a", [NEWLINE; NEWLINE]); ("b", ["x"%byte]);
                       ("c", [])])) = Ok ()
  ∧ displayed (main false
                 {| verbose := false; filenames := ["a"; "b"; "a"] |}
                 (world_of [("a", [NEWLINE; NEWLINE]); ("b", ["x"%byte]);
                            ("c", [])]))
    = [trailing_newline_message "a" [10; 10]; bare_newline_message "b";
       trailing_newline_message "a" [10; 10]].
Proof.
  destruct (main_displays_findings false
              {| verbose := false; filenames := ["a"; "b"; "a"] |}
              (world_of [("a", [NEWLINE; NEWLINE]); ("b", ["x"%byte]);
                         ("c", [])]))
    as (Hs & Hd & _).
  - repeat constructor; by eexists.
  - split; [exact Hs|]. rewrite Hd. reflexivity.
Defined.

(** X9: when a file named on the command line cannot be opened, the driver
    ends with the exception of the first such file and displays nothing,
    not even the findings of the files checked before it; the files named
    after it are not checked.  (Lines 144-151: the findings are displayed
    only after the first loop has ended.) *)
Theorem main_missing_file IS_WINDOWS args w before fn after :
  filenames args = before ++ fn :: after →
  Forall (λ f, is_Some (files w !! f)) before →
  files w !! fn = None →
  status (main IS_WINDOWS args w) = Raise (FileNotFoundError fn)
  ∧ displayed (main IS_WINDOWS args w) = []
  ∧ debug_log (world_after (main IS_WINDOWS args w))
    = debug_log w ++ (checking <$> before ++ [fn])
  ∧ files (world_after (main IS_WINDOWS args w)) = files w.
Proof.
  intros Hnames Hall Hf. unfold main.
  by rewrite Hnames, (check_files_missing _ _ _ _ _ _ Hall Hf).
Qed.

Lemma main_missing_file_witness :
  status (main false {| verbose := true; filenames := ["a"; "gone"; "b"] |}
            (world_of [("a", [NEWLINE; NEWLINE]); ("b", ["x"%byte])]))
  = Raise (FileNotFoundError "gone")
  ∧ displayed (main false
                 {| verbose := true; filenames := ["a"; "gone"; "b"] |}
                 (world_of [("a", [NEWLINE; NEWLINE]); ("b", ["x"%byte])]))
    = []
  ∧ debug_log (world_after
                 (main false
                    {| verbose := true; filenames := ["a"; "gone"; "b"] |}
                    (world_of [("a", [NEWLINE; NEWLINE]);
                               ("b", ["x"%byte])])))
    = [] ++ (checking <$> ["a"] ++ ["gone"])
  ∧ files (world_after
             (main false
                {| verbose := true; filenames := ["a"; "gone"; "b"] |}
                (world_of [("a", [NEWLINE; NEWLINE]); ("b", ["x"%byte])])))
    = files (world_of [("a", [NEWLINE; NEWLINE]); ("b", ["x"%byte])]).
Proof.
  apply (main_missing_file false
           {| verbose := true; filenames := ["a"; "gone"; "b"] |}
           (world_of [("a", [NEWLINE; NEWLINE]); ("b", ["x"%byte])])
           ["a"] "gone" ["b"]).
  - reflexivity.
  - repeat constructor; by eexists.
  - reflexivity.
Defined.

(** X10: when every file named on the command line can be read, the
    logging handler writes one "Checking file" line per file, in the order
    of the command line, if [--verbose] was given or fewer than 1000 files
    were named, and writes nothing otherwise.  (Lines 19 and 134-142.) *)
Theorem main_logged_lines IS_WINDOWS args w :
  Forall (λ f, is_Some (files w !! f)) (filenames args) →
  logged (main IS_WINDOWS args w)
  = if verbose args || (length (filenames args) <? 1000)%nat then
      (λ f, "<MainThread:DEBUG> Checking file " +:+ f) <$> filenames args
    else [].
Proof.
  intros [contents Hall]%files_present_contents. unfold main.
  rewrite (check_files_present _ _ contents [] w Hall). simpl.
  rewrite drop_app_length. unfold logging_level, debug_lines.
  destruct (verbose args); simpl.
  - rewrite <- list_fmap_compose. done.
  - destruct (length (filenames args) <? 1000)%nat; simpl; [|done].
    by rewrite <- list_fmap_compose.
Qed.

Lemma main_logged_lines_witness :
  logged (main true {| verbose := false; filenames := ["a"; "b"] |}
            (world_of [("a", [NEWLINE; NEWLINE]); ("b", ["x"%byte])]))
  = ["<MainThread:DEBUG> Checking file a";
     "<MainThread:DEBUG> Checking file b"].
Proof.
  apply (main_logged_lines true
           {| verbose := false; filenames := ["a"; "b"] |}
           (world_of [("a", [NEWLINE; NEWLINE]); ("b", ["x"%byte])])).
  repeat constructor; by eexists.
Defined.


(** ** What a finding's name says about the file *)

(** X11: the name of a finding tells the defect of the file, and no finding
    is spurious.  The first finding is reported exactly for one-byte files;
    "Trailing newline" exactly for valid UTF-8 ending in two line-feeds;
    "DOS newline" exactly, without the native-CRLF flag, for valid UTF-8 of
    two bytes or more that does not end in two line-feeds and has a
    carriage-return, line-feed pair; "Decoding failure" only for content
    that is not valid UTF-8, with the error of decoding the file as
    read.  (Lines 28-111.) *)
Theorem check_file_name_iff IS_WINDOWS filename w (data : bytes) m :
  files w !! filename = Some data →
  (check_file IS_WINDOWS filename w).1 = Ok (Some m) →
  (name m = "testestTrailing newline" ↔ length data = 1%nat)
  ∧ (name m = "Trailing newline"
     ↔ ends_blank data ∧ ∃ orig, bytes_decode_utf8 data = Ok orig)
  ∧ (name m = "DOS newline"
     ↔ IS_WINDOWS = false ∧ (2 ≤ length data)%nat ∧ ¬ ends_blank data
       ∧ has_crlf data ∧ ∃ orig, bytes_decode_utf8 data = Ok orig)
  ∧ (name m = "Decoding failure"
     ↔ ∃ err, bytes_decode_utf8 data = Raise err
              ∧ m = decode_failure_message filename err).
Proof.
  intros Hf (data' & Hf' & Hm)%check_file_Some_inv.
  rewrite Hf in Hf'. injection Hf' as <-.
  assert (Hlb : ends_blank data → (2 ≤ length data)%nat)
    by apply ends_blank_length.
  assert (Hlc : contains_crlf data = true → (2 ≤ length data)%nat).
  { intros (p & q & ->)%contains_crlf_spec. rewrite length_app. simpl. lia. }
  pose proof (contains_crlf_spec data) as Hspec.
  apply classify_Some_inv in Hm
    as [[Hlen ->]|[(Hb & err & Hdec & ->)|[(Hb & orig & Hdec & ->)
       |[(-> & Hlen & Hb & Hc & err & Hdec & ->)
        |(-> & Hlen & Hb & Hc & orig & Hdec & ->)]]]]; simpl;
    try specialize (Hlb Hb); try specialize (Hlc Hc);
    repeat split; intros; try discriminate;
    repeat match goal with
    | H : _ ∧ _ |- _ => destruct H
    | H : ∃ _, _ |- _ => destruct H
    end;
    try discriminate; try lia; try congruence; try tauto; eauto.
Qed.

Lemma check_file_name_iff_witness :
  (name (dos_newline_message "d.txt" [13; 10; 97] [10; 97])
   = "testestTrailing newline"
   ↔ length [CARRIAGE_RETURN; NEWLINE; "a"%byte] = 1%nat)
  ∧ (name (dos_newline_message "d.txt" [13; 10; 97] [10; 97])
     = "Trailing newline"
     ↔ ends_blank [CARRIAGE_RETURN; NEWLINE; "a"%byte]
       ∧ ∃ orig,
           bytes_decode_utf8 [CARRIAGE_RETURN; NEWLINE; "a"%byte] = Ok orig)
  ∧ (name (dos_newline_message "d.txt" [13; 10; 97] [10; 97])
     = "DOS newline"
     ↔ false = false
       ∧ (2 ≤ length [CARRIAGE_RETURN; NEWLINE; "a"%byte])%nat
       ∧ ¬ ends_blank [CARRIAGE_RETURN; NEWLINE; "a"%byte]
       ∧ has_crlf [CARRIAGE_RETURN; NEWLINE; "a"%byte]
       ∧ ∃ orig,
           bytes_decode_utf8 [CARRIAGE_RETURN; NEWLINE; "a"%byte] = Ok orig)
  ∧ (name (dos_newline_message "d.txt" [13; 10; 97] [10; 97])
     = "Decoding failure"
     ↔ ∃ err,
         bytes_decode_utf8 [CARRIAGE_RETURN; NEWLINE; "a"%byte] = Raise err
         ∧ dos_newline_message "d.txt" [13; 10; 97] [10; 97]
           = decode_failure_message "d.txt" err).
Proof.
  apply (check_file_name_iff false "d.txt"
           (world_with "d.txt" [CARRIAGE_RETURN; NEWLINE; "a"%byte])).
  - apply world_with_lookup.
  - by rewrite (check_file_result _ _ _ _ (world_with_lookup _ _)).
Defined.
